(** * Log parsing and event normalisation (features.py)

    A shallow embedding of [parse_log_data] and
    [process_logs_and_summarize] from [features.py], together with the
    parts of the Python runtime they lean on ([str.splitlines],
    [str.strip], [str.upper], the backtracking matcher of [re]), and the
    properties of the line classifier and of the event aggregator. *)

From Stdlib Require Import NArith ZArith Ascii String DecimalString Lia.
From stdpp Require Import base option list gmap strings.

Local Open Scope N_scope.

(** ** Python text *)

(** A Python [str] is a sequence of Unicode code points. *)
Definition char := N.
Definition str := list char.

(** ASCII literals of the source, written as Rocq strings. *)
Definition u (s : string) : str :=
  List.map N_of_ascii (list_ascii_of_string s).

Definition str_eqb (a b : str) : bool := bool_decide (a = b).

(** [Py_UNICODE_ISSPACE]: what [str.strip], [str.isspace] and the
    pattern class [\s] test. *)
Definition isspace (c : char) : bool :=
  ((0x09 <=? c) && (c <=? 0x0D)) || ((0x1C <=? c) && (c <=? 0x20))
  || (c =? 0x85) || (c =? 0xA0) || (c =? 0x1680)
  || ((0x2000 <=? c) && (c <=? 0x200A))
  || (c =? 0x2028) || (c =? 0x2029) || (c =? 0x202F) || (c =? 0x205F)
  || (c =? 0x3000).

(** [Py_UNICODE_ISLINEBREAK]: the boundaries of [str.splitlines]. *)
Definition islinebreak (c : char) : bool :=
  ((0x0A <=? c) && (c <=? 0x0D)) || ((0x1C <=? c) && (c <=? 0x1E))
  || (c =? 0x85) || (c =? 0x2028) || (c =? 0x2029).

Definition is_ascii (c : char) : bool := c <? 128.

Definition ascii_isdigit (c : char) : bool := (48 <=? c) && (c <=? 57).

Definition ascii_toupper (c : char) : char :=
  if (97 <=? c) && (c <=? 122) then c - 32 else c.

(** The tables of the interpreter's Unicode database that the program
    consults and that change from one Unicode version to the next: the
    decimal-digit property (class [\d]) with the value of a digit (read by
    [int]), and the full upper-case mapping (one code point may map to
    several, as for U+00DF).  Only their restriction to ASCII is fixed
    here; [todecimal] is looked at on decimal digits only. *)
Class UnicodeData := {
  isdecimal : char -> bool;
  todecimal : char -> N;
  toupper_full : char -> str;
  isdecimal_ascii : forall c, c < 128 -> isdecimal c = ascii_isdigit c;
  todecimal_ascii : forall c, c < 128 -> todecimal c = c - 48;
  toupper_full_ascii : forall c, c < 128 -> toupper_full c = [ascii_toupper c]
}.

(** The database restricted to its ASCII rows: everything else is neither a
    digit nor changed by upper-casing. *)
Definition basic_isdecimal (c : char) : bool := is_ascii c && ascii_isdigit c.
Definition basic_toupper (c : char) : str :=
  if is_ascii c then [ascii_toupper c] else [c].

Definition BasicLatin : UnicodeData.
Proof.
  refine {| isdecimal := basic_isdecimal;
            todecimal := fun c => c - 48;
            toupper_full := basic_toupper |}.
  - intros c Hc. unfold basic_isdecimal, is_ascii.
    destruct (N.ltb_spec c 128); [reflexivity | lia].
  - reflexivity.
  - intros c Hc. unfold basic_toupper, is_ascii.
    destruct (N.ltb_spec c 128); [reflexivity | lia].
Defined.

(** [str.lstrip()], [str.rstrip()], [str.strip()] without argument. *)
Fixpoint lstrip (s : str) : str :=
  match s with
  | c :: t => if isspace c then lstrip t else s
  | [] => []
  end.

Definition rstrip (s : str) : str := rev (lstrip (rev s)).

Definition strip (s : str) : str := rstrip (lstrip s).

(** [str.splitlines()]: [cur] holds, reversed, the characters of the line
    being read.  A carriage return followed by a line feed is one boundary;
    nothing is produced after the last boundary. *)
Fixpoint splitlines_from (cur : str) (s : str) : list str :=
  match s with
  | [] => match cur with [] => [] | _ => [rev cur] end
  | c :: t =>
      if islinebreak c then
        rev cur ::
          match t with
          | c' :: t' =>
              if (c =? 0x0D) && (c' =? 0x0A) then splitlines_from [] t'
              else splitlines_from [] t
          | [] => splitlines_from [] t
          end
      else splitlines_from (c :: cur) t
  end.

Definition splitlines (s : str) : list str := splitlines_from [] s.

(** [str.upper()]: the full mapping, code point by code point. *)
Definition upper `{U : UnicodeData} (s : str) : str :=
  List.flat_map toupper_full s.

(** [needle in hay] on strings. *)
Fixpoint starts_with (p s : str) : bool :=
  match p, s with
  | [], _ => true
  | a :: p', b :: s' => (a =? b) && starts_with p' s'
  | _ :: _, [] => false
  end.

Fixpoint contains (needle hay : str) : bool :=
  starts_with needle hay ||
  match hay with
  | [] => false
  | _ :: t => contains needle t
  end.

(** [s[i:]] for a Python index, negative ones counting from the end. *)
Definition slice_from (s : str) (i : Z) : str :=
  if (i <? 0)%Z then drop (Z.to_nat (Z.of_nat (length s) + i)) s
  else drop (Z.to_nat i) s.

(** ** The pattern matcher of [re]

    Patterns as [re] compiles them, restricted to the constructs the
    program uses.  Repetition with [*] is over a single character class,
    which is all the source needs. *)
Inductive cclass :=
| CLit (c : char)          (* a literal character *)
| CDigit                   (* \d *)
| CSpace                   (* \s *)
| CDot                     (* .  : anything but a line feed *)
| CRange (lo hi : char).   (* [lo-hi] *)

Inductive regex :=
| REmpty
| RBol                                 (* ^ *)
| RChar (cs : cclass)
| RSeq (r1 r2 : regex)
| RAlt (r1 r2 : regex)                 (* r1|r2, left first *)
| ROpt (r : regex)                     (* r?  greedy *)
| RStar (cs : cclass)                  (* cs* greedy *)
| RGroup (name : string) (r : regex).  (* (?P<name>r) *)

Definition in_class `{U : UnicodeData} (cs : cclass) (c : char) : bool :=
  match cs with
  | CLit a => a =? c
  | CDigit => isdecimal c
  | CSpace => isspace c
  | CDot => negb (c =? 0x0A)
  | CRange lo hi => (lo <=? c) && (c <=? hi)
  end.

(** The state of a match in progress: the position reached, the text still
    to read, and the spans of the groups closed so far. *)
Record mstate := MState {
  ms_pos : nat;
  ms_rest : str;
  ms_groups : gmap string (nat * nat)
}.

Definition ms_advance (st : mstate) (t : str) : mstate :=
  MState (S (ms_pos st)) t (ms_groups st).

Definition ms_close (name : string) (start : nat) (st : mstate) : mstate :=
  MState (ms_pos st) (ms_rest st) (<[name := (start, ms_pos st)]> (ms_groups st)).

(** [star_loop test k pos groups s]: take as many characters passing [test]
    as possible, giving back one at a time while the rest of the pattern,
    [k], fails. *)
Fixpoint star_loop {A} (test : char -> bool) (k : mstate -> option A)
    (pos : nat) (groups : gmap string (nat * nat)) (s : str) : option A :=
  match s with
  | c :: t =>
      if test c then
        match star_loop test k (S pos) groups t with
        | Some r => Some r
        | None => k (MState pos s groups)
        end
      else k (MState pos s groups)
  | [] => k (MState pos s groups)
  end.

(** Backtracking search in continuation-passing style: [rmatch r st k]
    is the first way, in the matcher's order of preference, of matching [r]
    at [st] for which the rest of the pattern, [k], succeeds. *)
Fixpoint rmatch `{U : UnicodeData} {A} (r : regex) (st : mstate)
    (k : mstate -> option A) : option A :=
  match r with
  | REmpty => k st
  | RBol => if bool_decide (ms_pos st = 0%nat) then k st else None
  | RChar cs =>
      match ms_rest st with
      | c :: t => if in_class cs c then k (ms_advance st t) else None
      | [] => None
      end
  | RSeq r1 r2 => rmatch r1 st (fun st' => rmatch r2 st' k)
  | RAlt r1 r2 =>
      match rmatch r1 st k with
      | Some x => Some x
      | None => rmatch r2 st k
      end
  | ROpt r1 =>
      match rmatch r1 st k with
      | Some x => Some x
      | None => k st
      end
  | RStar cs => star_loop (in_class cs) k (ms_pos st) (ms_groups st) (ms_rest st)
  | RGroup name r1 =>
      rmatch r1 st (fun st' => k (ms_close name (ms_pos st) st'))
  end.

(** Pattern combinators for writing patterns the way the source does. *)
Fixpoint rseq (rs : list regex) : regex :=
  match rs with
  | [] => REmpty
  | [r] => r
  | r :: rs' => RSeq r (rseq rs')
  end.

Fixpoint ralt (rs : list regex) : regex :=
  match rs with
  | [] => REmpty
  | [r] => r
  | r :: rs' => RAlt r (ralt rs')
  end.

Definition rlit (s : string) : regex := rseq (List.map (fun c => RChar (CLit c)) (u s)).

Fixpoint rrepeat (n : nat) (r : regex) : regex :=
  match n with
  | O => REmpty
  | 1%nat => r
  | S n' => RSeq r (rrepeat n' r)
  end.

Definition d (n : nat) : regex := rrepeat n (RChar CDigit).
Definition lit (s : string) : regex := rlit s.

(** A match object: the subject and the spans of the groups that took
    part. *)
Record Match := {
  m_string : str;
  m_end_pos : nat;
  m_spans : gmap string (nat * nat)
}.

(** [pattern.match(subject)]: anchored at the start of the subject. *)
Definition re_match `{U : UnicodeData} (pattern : regex) (subject : str) : option Match :=
  rmatch pattern (MState 0 subject ∅)
    (fun st => Some {| m_string := subject;
                       m_end_pos := ms_pos st;
                       m_spans := ms_groups st |}).

Definition substr (s : str) (a b : nat) : str := take (b - a) (drop a s).

(** [match.group(name)]: [None] for a group that took no part. *)
Definition group (m : Match) (name : string) : option str :=
  match m_spans m !! name with
  | Some (a, b) => Some (substr (m_string m) a b)
  | None => None
  end.

(** [match.end(name)]: -1 for a group that took no part. *)
Definition group_end (m : Match) (name : string) : Z :=
  match m_spans m !! name with
  | Some (_, b) => Z.of_nat b
  | None => (-1)%Z
  end.

(** ** features.py: the line pattern *)

(** [log_pattern], lines 32-36 of features.py, piece by piece.  The
    timestamp: four digits, two, two, a space, three pairs of digits with
    colons, and optionally a comma and three digits. *)
Definition timestamp_re : regex :=
  rseq [d 4; lit "-"; d 2; lit "-"; d 2; lit " "; d 2; lit ":"; d 2; lit ":"; d 2;
        ROpt (RSeq (lit ",") (d 3))].

(** The alternation of the level group, in the order of the source. *)
Definition level_names : list string :=
  ["INFO"; "WARN"; "WARNING"; "ERROR"; "DEBUG"; "CRITICAL"; "FATAL"]%string.

Definition level_re : regex := ralt (List.map lit level_names).

Definition log_pattern : regex :=
  rseq [RBol;                                        (* ^ *)
        ROpt (RGroup "timestamp_str" timestamp_re);  (* (?P<timestamp_str>..)? *)
        RStar CSpace;                                (* \s* *)
        ROpt (rseq [ROpt (lit "[");                  (* (?:\[? *)
                    RGroup "level" level_re;         (* (?P<level>..|..) *)
                    ROpt (lit "]")]);                (* \]?)? *)
        RStar CSpace;                                (* \s* *)
        RGroup "message" (RStar CDot)].              (* (?P<message>. * ) *)

(** ** Exceptions *)

Inductive exn :=
| AttributeError (msg : str)
| UnicodeDecodeError
| UnicodeEncodeError (msg : str)
| ServiceError (msg : str).

Inductive result (A : Type) :=
| Ok (a : A)
| Raise (e : exn).
Arguments Ok {A} a.
Arguments Raise {A} e.

Global Instance result_ret : MRet result := fun A a => Ok a.

Global Instance result_bind : MBind result := fun A B f m =>
  match m with
  | Ok a => f a
  | Raise e => Raise e
  end.

(** A [for] loop over a list whose body may raise. *)
Fixpoint for_each {S X} (body : S -> X -> result S) (xs : list X) (s : S) : result S :=
  match xs with
  | [] => Ok s
  | x :: xs' => s' ← body s x; for_each body xs' s'
  end.

(** [o.strip()] where [o] may be [None]. *)
Definition strip_method (o : option str) : result str :=
  match o with
  | Some s => Ok (strip s)
  | None => Raise (AttributeError (u "'NoneType' object has no attribute 'strip'"))
  end.

(** Truth value of a string, and of an optional string: [None] and the
    empty string are false. *)
Definition nonempty (s : str) : bool :=
  match s with
  | [] => false
  | _ :: _ => true
  end.

Definition truthy (o : option str) : bool :=
  match o with
  | Some (_ :: _) => true
  | _ => false
  end.

(** ** features.py: the line classifier (body of the loop, lines 43-79) *)

Record LogEntry := {
  timestamp_str : option str;
  level : str;
  message : str;
  raw_line : str
}.

Section Classifier.
Context `{U : UnicodeData}.

(** Lines 43-62: the match against [log_pattern] and what is read off it. *)
Definition structured_match (line : str) : result (option str * str * str) :=
  match re_match log_pattern line with
  | None => Ok (None, u "INFO", line)
  | Some m =>
      let timestamp_str := group m "timestamp_str" in
      let level_group := group m "level" in
      message ← strip_method (group m "message");
      let level :=
        if truthy level_group then upper (default [] level_group) else u "INFO" in
      let message :=
        if negb (nonempty message) && truthy timestamp_str && truthy level_group
        then
          let message := strip (slice_from line (group_end m "timestamp_str")) in
          if truthy level_group
          then strip (slice_from line (group_end m "level"))
          else message
        else message in
      Ok (timestamp_str, level, message)
  end.

(** Lines 67-70: the keyword fallback. *)
Definition keyword_override (line level : str) : str :=
  if contains (u "ERROR") (upper line)
     && negb (str_eqb level (u "ERROR"))
     && negb (str_eqb level (u "CRITICAL"))
     && negb (str_eqb level (u "FATAL"))
  then u "ERROR"
  else if (contains (u "WARN") (upper line) || contains (u "WARNING") (upper line))
          && negb (str_eqb level (u "WARN"))
          && negb (str_eqb level (u "WARNING"))
  then u "WARN"
  else level.

Definition classify_line (line : str) : result LogEntry :=
  '(timestamp_str, level, message) ← structured_match line;
  let level := keyword_override line level in
  Ok {| timestamp_str := timestamp_str;
        level := level;
        message := message;
        raw_line := line |}.

(** Line 82: the levels whose lines go to the summarizer. *)
Definition elevated_levels : list str :=
  [u "ERROR"; u "WARN"; u "WARNING"; u "CRITICAL"; u "FATAL"].

Definition is_elevated (level : str) : bool :=
  existsb (str_eqb level) elevated_levels.

(** Lines 38-84: one turn of the loop over [parsed_entries] and
    [raw_error_warning_lines]. *)
Definition loop_body (max_lines_for_llm : Z) (acc : list LogEntry * list str)
    (line : str) : result (list LogEntry * list str) :=
  let '(parsed_entries, raw_error_warning_lines) := acc in
  let line := strip line in
  match line with
  | [] => Ok acc
  | _ =>
      parsed_entry ← classify_line line;
      let parsed_entries := parsed_entries ++ [parsed_entry] in
      let raw_error_warning_lines :=
        if is_elevated (level parsed_entry) then
          if (Z.of_nat (length raw_error_warning_lines) <? max_lines_for_llm)%Z
          then raw_error_warning_lines ++ [line]
          else raw_error_warning_lines
        else raw_error_warning_lines in
      Ok (parsed_entries, raw_error_warning_lines)
  end.

End Classifier.

(** ** features.py: the event aggregator ([parse_log_data]) *)

(** A point in time as [pandas.Timestamp] exposes it. *)
Record Timestamp := {
  year : N; month : N; day : N;
  hour : N; minute : N; second : N;
  microsecond : N; nanosecond : N
}.

(** The element-wise parser behind [pd.to_datetime(..., errors='coerce',
    format=fmt)]: the time a string denotes under a format, [None] (NaT)
    when it does not fit.  A model of it for the directives of the source is
    [strptime] below. *)
Class DatetimeParser := {
  to_datetime_scalar : str -> str -> option Timestamp
}.

(** A row of [df_logs]: the four columns of the entry and the [timestamp]
    column added at lines 89-98. *)
Record Row := {
  entry : LogEntry;
  timestamp : option Timestamp
}.

Definition DataFrame := list Row.

Record ParsedData := {
  df_logs : DataFrame;
  error_warning_raw_lines : list str
}.

Definition fmt_millis : str := u "%Y-%m-%d %H:%M:%S,%f".
Definition fmt_seconds : str := u "%Y-%m-%d %H:%M:%S".

Section Aggregator.
Context `{U : UnicodeData} `{P : DatetimeParser}.

(** [pd.to_datetime(column, errors='coerce', format=fmt)]; a missing value
    stays missing. *)
Definition to_datetime (fmt : str) (column : list (option str)) : list (option Timestamp) :=
  List.map (fun o => o ≫= to_datetime_scalar fmt) column.

Definition isnull {A} (o : option A) : bool :=
  match o with
  | None => true
  | Some _ => false
  end.

(** [a.fillna(b)] for two columns over the same index. *)
Definition fillna {A} (a b : list (option A)) : list (option A) :=
  zip_with (fun x y => if isnull x then y else x) a b.

(** Lines 89-98.  The frame has a [timestamp_str] column exactly when it has
    a row. *)
Definition timestamp_column (parsed_entries : list LogEntry) : list (option Timestamp) :=
  let column := List.map timestamp_str parsed_entries in
  if negb (bool_decide (parsed_entries = [])) && negb (forallb isnull column) then
    let parsed := to_datetime fmt_millis column in
    if existsb isnull parsed
    then fillna parsed (to_datetime fmt_seconds column)
    else parsed
  else List.map (fun _ => None) parsed_entries.

Definition make_frame (parsed_entries : list LogEntry) : DataFrame :=
  zip_with (fun e t => {| entry := e; timestamp := t |})
    parsed_entries (timestamp_column parsed_entries).

Definition parse_log_data (log_content : str) (max_lines_for_llm : Z) : result ParsedData :=
  let log_lines := splitlines log_content in
  '(parsed_entries, raw_error_warning_lines) ←
     for_each (loop_body max_lines_for_llm) log_lines ([], []);
  Ok {| df_logs := make_frame parsed_entries;
        error_warning_raw_lines := raw_error_warning_lines |}.

End Aggregator.

(** ** A model of the format parser

    [strptime fmt s] follows the documented reading of the directives the
    source uses: the format becomes a pattern (one group per directive, a
    run of white space standing for one or more white-space characters), the
    whole string has to match, and the fields have to form a date of the
    calendar.  The limits of the nanosecond representation are left out,
    and seconds go up to 59 and years start at 1 as in [datetime.strptime],
    where the parser of pandas is more liberal.  The parser belongs to
    pandas, not to the repository: the aggregator is written over any
    [DatetimeParser], and this model is one of them, used for examples
    away from those edges. *)
Section Strptime.
Context `{U : UnicodeData}.

Definition ch (s : string) : char := List.hd 0 (u s).

Definition digit : regex := RChar CDigit.
Definition range (lo hi : string) : regex := RChar (CRange (ch lo) (ch hi)).

(** [r{0,n}], greedy. *)
Fixpoint rupto (n : nat) (r : regex) : regex :=
  match n with
  | O => REmpty
  | S n' => ROpt (RSeq r (rupto n' r))
  end.

Definition directive_regex (c : char) : option regex :=
  if c =? ch "Y" then Some (rseq [digit; digit; digit; digit])
  else if c =? ch "m" then
    Some (ralt [RSeq (lit "1") (range "0" "2"); RSeq (lit "0") (range "1" "9"); range "1" "9"])
  else if c =? ch "d" then
    Some (ralt [RSeq (lit "3") (range "0" "1"); RSeq (range "1" "2") digit;
                RSeq (lit "0") (range "1" "9"); range "1" "9"; RSeq (lit " ") (range "1" "9")])
  else if c =? ch "H" then
    Some (ralt [RSeq (lit "2") (range "0" "3"); RSeq (range "0" "1") digit; digit])
  else if c =? ch "M" then
    Some (ralt [RSeq (range "0" "5") digit; digit])
  else if c =? ch "S" then
    Some (ralt [RSeq (lit "6") (range "0" "1"); RSeq (range "0" "5") digit; digit])
  else if c =? ch "f" then
    Some (RSeq (range "0" "9") (rupto 8 (range "0" "9")))
  else None.

Definition directive_name (c : char) : string := String (ascii_of_N c) EmptyString.

Fixpoint format_regex (in_space : bool) (fmt : str) : option regex :=
  match fmt with
  | [] => Some REmpty
  | c :: t =>
      if c =? ch "%" then
        match t with
        | dc :: t' =>
            r ← directive_regex dc;
            rest ← format_regex false t';
            Some (RSeq (RGroup (directive_name dc) r) rest)
        | [] => None
        end
      else if isspace c then
        rest ← format_regex true t;
        Some (if in_space then rest else RSeq (RSeq (RChar CSpace) (RStar CSpace)) rest)
      else
        rest ← format_regex false t;
        Some (RSeq (RChar (CLit c)) rest)
  end.

(** [int(s)] on a string of decimal digits. *)
Definition int_of_digits (s : str) : N :=
  fold_left (fun acc c => 10 * acc + todecimal c) s 0.

(** A field of the match, or its default when the directive is absent. *)
Definition field (m : Match) (name : string) (dflt : N) : N :=
  match group m name with
  | Some s => int_of_digits (lstrip s)
  | None => dflt
  end.

(** The fraction is read as nanoseconds: padded with zeros on the right to
    nine digits. *)
Definition fraction (m : Match) : N :=
  match group m "f" with
  | Some s => int_of_digits (s ++ repeat (ch "0") (9 - length s))
  | None => 0
  end.

Definition is_leap (y : N) : bool :=
  ((y mod 4 =? 0) && negb (y mod 100 =? 0)) || (y mod 400 =? 0).

Definition days_in_month (y m : N) : N :=
  if m =? 2 then (if is_leap y then 29 else 28)
  else if (m =? 4) || (m =? 6) || (m =? 9) || (m =? 11) then 30
  else 31.

Definition strptime (fmt s : str) : option Timestamp :=
  r ← format_regex false fmt;
  m ← re_match r s;
  if negb (bool_decide (m_end_pos m = length s)) then None
  else
    let y := field m "Y" 1900 in
    let mo := field m "m" 1 in
    let dd := field m "d" 1 in
    let ss := field m "S" 0 in
    let f := fraction m in
    if (1 <=? y) && (1 <=? mo) && (mo <=? 12) && (1 <=? dd)
       && (dd <=? days_in_month y mo) && (ss <=? 59)
    then Some {| year := y; month := mo; day := dd;
                 hour := field m "H" 0; minute := field m "M" 0; second := ss;
                 microsecond := f / 1000; nanosecond := f mod 1000 |}
    else None.

Definition strptime_parser : DatetimeParser :=
  {| to_datetime_scalar := strptime |}.

End Strptime.

(** ** features.py: [process_logs_and_summarize] *)

(** [bytes.decode("utf-8")], strict: shortest encodings only, no surrogates,
    nothing above U+10FFFF. *)
Definition is_continuation (b : N) : bool := (0x80 <=? b) && (b <=? 0xBF).

Fixpoint utf8_decode (bs : list Byte.byte) : result str :=
  match bs with
  | [] => Ok []
  | b0 :: t =>
      let x0 := Byte.to_N b0 in
      if x0 <? 0x80 then
        s ← utf8_decode t; Ok (x0 :: s)
      else if (0xC2 <=? x0) && (x0 <=? 0xDF) then
        match t with
        | b1 :: t1 =>
            let x1 := Byte.to_N b1 in
            if is_continuation x1 then
              s ← utf8_decode t1;
              Ok ((x0 - 0xC0) * 64 + (x1 - 0x80) :: s)
            else Raise UnicodeDecodeError
        | _ => Raise UnicodeDecodeError
        end
      else if (0xE0 <=? x0) && (x0 <=? 0xEF) then
        match t with
        | b1 :: b2 :: t2 =>
            let x1 := Byte.to_N b1 in
            let x2 := Byte.to_N b2 in
            let lo := if x0 =? 0xE0 then 0xA0 else 0x80 in
            let hi := if x0 =? 0xED then 0x9F else 0xBF in
            if (lo <=? x1) && (x1 <=? hi) && is_continuation x2 then
              s ← utf8_decode t2;
              Ok ((x0 - 0xE0) * 4096 + (x1 - 0x80) * 64 + (x2 - 0x80) :: s)
            else Raise UnicodeDecodeError
        | _ => Raise UnicodeDecodeError
        end
      else if (0xF0 <=? x0) && (x0 <=? 0xF4) then
        match t with
        | b1 :: b2 :: b3 :: t3 =>
            let x1 := Byte.to_N b1 in
            let x2 := Byte.to_N b2 in
            let x3 := Byte.to_N b3 in
            let lo := if x0 =? 0xF0 then 0x90 else 0x80 in
            let hi := if x0 =? 0xF4 then 0x8F else 0xBF in
            if (lo <=? x1) && (x1 <=? hi) && is_continuation x2 && is_continuation x3 then
              s ← utf8_decode t3;
              Ok ((x0 - 0xF0) * 262144 + (x1 - 0x80) * 4096
                  + (x2 - 0x80) * 64 + (x3 - 0x80) :: s)
            else Raise UnicodeDecodeError
        | _ => Raise UnicodeDecodeError
        end
      else Raise UnicodeDecodeError
  end.

(** [sep.join(parts)]. *)
Fixpoint join (sep : str) (parts : list str) : str :=
  match parts with
  | [] => []
  | [p] => p
  | p :: ps => p ++ sep ++ join sep ps
  end.

(** [s.replace(old, new)]: occurrences are replaced from the left and do
    not overlap; [skip] counts the characters of an occurrence still to be
    passed over. *)
Fixpoint replace_from (old new : str) (skip : nat) (s : str) : str :=
  match s with
  | [] => []
  | c :: t =>
      match skip with
      | S n => replace_from old new n t
      | O =>
          if starts_with old s
          then new ++ replace_from old new (length old - 1) t
          else c :: replace_from old new 0 t
      end
  end.

Definition replace (old new s : str) : str :=
  match old with
  | [] => new ++ List.flat_map (fun c => c :: new) s
  | _ => replace_from old new 0 s
  end.

(** [s.encode("utf-8")].  A surrogate has no encoding: the codec raises
    at the first one, naming it, or the span of the surrogates that follow
    one another from there, by position.  A [str] holds code points up to
    U+10FFFF, which is all that [byte_of] is asked for. *)
Definition is_surrogate (c : char) : bool := (0xD800 <=? c) && (c <=? 0xDFFF).

Definition decimal (n : N) : str := u (NilZero.string_of_uint (N.to_uint n)).

Definition hex_digit (n : N) : char := if n <? 10 then 48 + n else 87 + n.

Definition hex4 (c : N) : str :=
  [hex_digit (c / 4096 mod 16); hex_digit (c / 256 mod 16);
   hex_digit (c / 16 mod 16); hex_digit (c mod 16)].

Fixpoint surrogates_ahead (s : str) : N :=
  match s with
  | c :: t => if is_surrogate c then 1 + surrogates_ahead t else 0
  | [] => 0
  end.

Definition encode_error_text (pos : N) (c : char) (more : N) : str :=
  if more =? 0 then
    u "'utf-8' codec can't encode character '\u" ++ hex4 c ++ u "' in position "
    ++ decimal pos ++ u ": surrogates not allowed"
  else
    u "'utf-8' codec can't encode characters in position " ++ decimal pos ++ u "-"
    ++ decimal (pos + more) ++ u ": surrogates not allowed".

Definition byte_of (n : N) : Byte.byte := default Byte.x00 (Byte.of_N n).

Definition encode_char (c : char) : list Byte.byte :=
  if c <? 0x80 then [byte_of c]
  else if c <? 0x800 then [byte_of (0xC0 + c / 64); byte_of (0x80 + c mod 64)]
  else if c <? 0x10000 then
    [byte_of (0xE0 + c / 4096); byte_of (0x80 + c / 64 mod 64); byte_of (0x80 + c mod 64)]
  else
    [byte_of (0xF0 + c / 262144); byte_of (0x80 + c / 4096 mod 64);
     byte_of (0x80 + c / 64 mod 64); byte_of (0x80 + c mod 64)].

Fixpoint utf8_encode_from (pos : N) (s : str) : result (list Byte.byte) :=
  match s with
  | [] => Ok []
  | c :: t =>
      if is_surrogate c
      then Raise (UnicodeEncodeError (encode_error_text pos c (surrogates_ahead t)))
      else encoded ← utf8_encode_from (pos + 1) t; Ok (encode_char c ++ encoded)
  end.

Definition utf8_encode (s : str) : result (list Byte.byte) := utf8_encode_from 0 s.

(** [base64.b64encode(data).decode()]: three bytes give four characters of
    the alphabet, and the last group is padded with [=]. *)
Definition b64_alphabet : str :=
  u "ABCDEFGHIJKLMNOPQRSTUVWXYZabcdefghijklmnopqrstuvwxyz0123456789+/".

Definition b64_char (n : N) : char := nth (N.to_nat n) b64_alphabet 0.

Fixpoint b64encode (data : list Byte.byte) : str :=
  match data with
  | [] => []
  | [a] =>
      let n := Byte.to_N a * 65536 in
      [b64_char (n / 262144); b64_char (n / 4096 mod 64); 0x3D; 0x3D]
  | [a; b] =>
      let n := Byte.to_N a * 65536 + Byte.to_N b * 256 in
      [b64_char (n / 262144); b64_char (n / 4096 mod 64); b64_char (n / 64 mod 64); 0x3D]
  | a :: b :: c :: t =>
      let n := Byte.to_N a * 65536 + Byte.to_N b * 256 + Byte.to_N c in
      [b64_char (n / 262144); b64_char (n / 4096 mod 64); b64_char (n / 64 mod 64);
       b64_char (n mod 64)] ++ b64encode t
  end.

(** The page of lines 158-180: the text before the title prefix, the text
    between the prefix and the rendered summary, and the text after it. *)
Definition html_head : str :=
  join [0x0A]
    [[];
     u "            <!DOCTYPE html>";
     u "            <html lang=" ++ [0x22] ++ u "en" ++ [0x22] ++ u ">";
     u "            <head>";
     u "                <meta charset=" ++ [0x22] ++ u "UTF-8" ++ [0x22] ++ u ">";
     u "                <meta name=" ++ [0x22] ++ u "viewport" ++ [0x22] ++ u " content=" ++ [0x22] ++ u "width=device-width, initial-scale=1.0" ++ [0x22] ++ u ">";
     u "                <title>Log Explanation - "].

Definition html_middle : str :=
  join [0x0A]
    [u "</title>";
     u "                <style>";
     u "                    body { font-family: 'Inter', sans-serif; line-height: 1.6; margin: 20px; color: #333; }";
     u "                    h1, h2, h3, h4, h5, h6 { font-family: 'Inter', sans-serif; color: #2E86C1; }";
     u "                    h2 { border-bottom: 1px solid #eee; padding-bottom: 5px; margin-top: 30px; }";
     u "                    pre { background-color: #f4f4f4; padding: 10px; border-radius: 5px; overflow-x: auto; }";
     u "                    code { background-color: #f9f9f9; padding: 2px 4px; border-radius: 3px; font-family: monospace; }";
     u "                    ul { list-style-type: disc; padding-left: 20px; }";
     u "                    ol { padding-left: 20px; }";
     u "                    ul li, ol li { margin-bottom: 5px; }";
     u "                </style>";
     u "            </head>";
     u "            <body>";
     u "                "].

Definition html_tail : str :=
  join [0x0A]
    [[];
     u "            </body>";
     u "            </html>";
     u "            "].

Definition html_page (download_filename_prefix html_summary : str) : str :=
  html_head ++ download_filename_prefix ++ html_middle ++ html_summary ++ html_tail.

(** The file object of the upload widget, as far as the function reads
    it. *)
Record UploadedFile := {
  file_name : str;
  file_bytes : list Byte.byte
}.

(** The collaborators of the function: the summarizer of [ai_logic], which
    answers with a text or raises, and the renderer
    [markdown.markdown(text, extensions=[...])] of line 157, which gives
    the HTML of a text or raises. *)
Class Collaborators := {
  generate_log_summary : str -> result str;
  markdown_html : str -> result str
}.

(** The five values the function returns. *)
Record Outcome := {
  summary_text : str;
  download_link : option str;
  success : bool;
  error_message : option str;
  frame : option DataFrame
}.

Definition exn_text (e : exn) : str :=
  match e with
  | AttributeError msg => msg
  | UnicodeDecodeError => u "'utf-8' codec can't decode bytes"
  | UnicodeEncodeError msg => msg
  | ServiceError msg => msg
  end.

Section Pipeline.
Context `{U : UnicodeData} `{P : DatetimeParser} `{C : Collaborators}.

(** The two [except] clauses, lines 190-193. *)
Definition on_exception (df_logs : option DataFrame) (e : exn) : Outcome :=
  match e with
  | UnicodeDecodeError =>
      {| summary_text := []; download_link := None; success := false;
         error_message := Some (u "Failed to read log file: UnicodeDecodeError. Try a different encoding (e.g., 'latin-1') or ensure it's a plain text file.");
         frame := df_logs |}
  | _ =>
      {| summary_text := []; download_link := None; success := false;
         error_message :=
           Some (u "An unexpected error occurred during log processing: " ++ exn_text e);
         frame := df_logs |}
  end.

(** Lines 146-188: the download link for a summary.  Encoding the text
    and rendering it may raise. *)
Definition export (name output_format summary : str) (df_logs : DataFrame)
    : result Outcome :=
  let download_filename_prefix := replace (u ".txt") [] (replace (u ".log") [] name) in
  if str_eqb output_format (u "markdown") then
    encoded ← utf8_encode summary;
    Ok {| summary_text := summary;
          download_link := Some (u "data:text/markdown;base64," ++ b64encode encoded);
          success := true; error_message := None; frame := Some df_logs |}
  else if str_eqb output_format (u "html") then
    html_summary ← markdown_html summary;
    let html_content := html_page download_filename_prefix html_summary in
    encoded ← utf8_encode html_content;
    Ok {| summary_text := summary;
          download_link := Some (u "data:text/html;base64," ++ b64encode encoded);
          success := true; error_message := None; frame := Some df_logs |}
  else
    Ok {| summary_text := summary; download_link := None; success := false;
          error_message := Some (u "Unsupported output format. Only Markdown and HTML are supported for download.");
          frame := Some df_logs |}.

(** The function returns its five values; the second component of the model
    lists, in order, the texts handed to the summarizer during the call. *)
Definition process_logs_and_summarize (uploaded_file : option UploadedFile)
    (output_format : str) : Outcome * list str :=
  match uploaded_file with
  | None =>
      ({| summary_text := []; download_link := None; success := false;
          error_message := Some (u "Please upload a log file to get started.");
          frame := None |}, [])
  | Some file =>
      match utf8_decode (file_bytes file) with
      | Raise e => (on_exception None e, [])
      | Ok log_content =>
          match parse_log_data log_content 200 with
          | Raise e => (on_exception None e, [])
          | Ok parsed_data =>
              let df_logs := df_logs parsed_data in
              let logs_for_llm := join [0x0A] (error_warning_raw_lines parsed_data) in
              if negb (nonempty logs_for_llm)
                 && bool_decide (error_warning_raw_lines parsed_data = [])
              then
                ({| summary_text := u "No significant errors or warnings found in the provided log file.";
                    download_link := None; success := true; error_message := None;
                    frame := Some df_logs |}, [])
              else
                match generate_log_summary logs_for_llm with
                | Raise e => (on_exception (Some df_logs) e, [logs_for_llm])
                | Ok summary =>
                    if negb (nonempty summary) || starts_with (u "ERROR:") summary
                    then
                      ({| summary_text := []; download_link := None; success := false;
                          error_message := Some summary; frame := Some df_logs |},
                       [logs_for_llm])
                    else
                      match export (file_name file) output_format summary df_logs with
                      | Raise e => (on_exception (Some df_logs) e, [logs_for_llm])
                      | Ok outcome => (outcome, [logs_for_llm])
                      end
                end
          end
      end
  end.

End Pipeline.

(** ** The pattern read directly

    What [log_pattern] finds, computed by one pass from left to right.  The
    functions below are shown further down to agree with the backtracking
    matcher on every subject. *)

(** The text starts with characters of the given classes, in order. *)
Fixpoint match_classes `{U : UnicodeData} (l : list cclass) (s : str) : bool :=
  match l, s with
  | [], _ => true
  | cs :: l', c :: s' => in_class cs c && match_classes l' s'
  | _ :: _, [] => false
  end.

(** The classes of a pattern that is a plain sequence of single
    characters. *)
Fixpoint flat (r : regex) : option (list cclass) :=
  match r with
  | REmpty => Some []
  | RChar cs => Some [cs]
  | RSeq a b => la ← flat a; lb ← flat b; Some (la ++ lb)
  | _ => None
  end.

Definition ms_skip (n : nat) (st : mstate) : mstate :=
  MState (ms_pos st + n) (drop n (ms_rest st)) (ms_groups st).

(** Length of the longest prefix whose characters all pass [test]. *)
Fixpoint span_len (test : char -> bool) (s : str) : nat :=
  match s with
  | c :: t => if test c then S (span_len test t) else O
  | [] => O
  end.

Definition skip_class `{U : UnicodeData} (cs : cclass) (st : mstate) : mstate :=
  ms_skip (span_len (in_class cs) (ms_rest st)) st.

Definition ts_seconds_re : regex :=
  rseq [d 4; lit "-"; d 2; lit "-"; d 2; lit " "; d 2; lit ":"; d 2; lit ":"; d 2].
Definition ts_millis_re : regex := RSeq (lit ",") (d 3).

Definition ts_seconds_classes : list cclass := default [] (flat ts_seconds_re).
Definition ts_millis_classes : list cclass := default [] (flat ts_millis_re).

Definition scan_timestamp `{U : UnicodeData} (st : mstate) : mstate :=
  if match_classes ts_seconds_classes (ms_rest st) then
    let st1 := ms_skip 19 st in
    ms_close "timestamp_str" (ms_pos st)
      (if match_classes ts_millis_classes (ms_rest st1) then ms_skip 4 st1 else st1)
  else st.

(** The first level name, in the order of the alternation, the text starts
    with. *)
Definition first_level (s : str) : option string :=
  List.find (fun w => starts_with (u w) s) level_names.

Definition skip_char (c : string) (st : mstate) : mstate :=
  if starts_with (u c) (ms_rest st) then ms_skip 1 st else st.

Definition scan_level_at (st : mstate) : option mstate :=
  w ← first_level (ms_rest st);
  Some (skip_char "]" (ms_close "level" (ms_pos st) (ms_skip (length (u w)) st))).

Definition scan_level (st : mstate) : mstate :=
  match (if starts_with (u "[") (ms_rest st) then scan_level_at (ms_skip 1 st) else None) with
  | Some st' => st'
  | None => default st (scan_level_at st)
  end.

Definition scan_message `{U : UnicodeData} (st : mstate) : mstate :=
  ms_close "message" (ms_pos st) (skip_class CDot st).

Definition scan `{U : UnicodeData} (line : str) : mstate :=
  scan_message (skip_class CSpace (scan_level (skip_class CSpace
    (scan_timestamp (MState 0 line ∅))))).

Definition finish (subject : str) (st : mstate) : Match :=
  {| m_string := subject; m_end_pos := ms_pos st; m_spans := ms_groups st |}.

(** A pattern that, whenever the rest of the pattern cannot fail, is matched
    in exactly one way, the one [f] computes. *)
Definition acts_as `{U : UnicodeData} (r : regex) (f : mstate -> mstate) : Prop :=
  forall A (k : mstate -> option A),
    (forall st, is_Some (k st)) -> forall st, rmatch r st k = k (f st).

(** A state of a match on [line]: what is left to read is the line from
    the position reached. *)
Definition wf (line : str) (st : mstate) : Prop :=
  ms_rest st = drop (ms_pos st) line.

(** The seven severities of the data model, and the six of them the
    structured match can produce. *)
Definition severities : list str :=
  [u "CRITICAL"; u "FATAL"; u "ERROR"; u "WARN"; u "WARNING"; u "INFO"; u "DEBUG"].

Definition structural_levels : list str :=
  [u "INFO"; u "WARN"; u "ERROR"; u "DEBUG"; u "CRITICAL"; u "FATAL"].

(** The span of the level group, when there is one, covers one of the level
    names other than the longer spelling of the warning level. *)
Definition level_span_ok (line : str) (g : gmap string (nat * nat)) : Prop :=
  forall a b, g !! "level"%string = Some (a, b) ->
    exists w, In w level_names /\ w <> "WARNING"%string /\ substr line a b = u w.

(** The classifier as a function: it is shown below never to raise. *)
Definition classify `{U : UnicodeData} (line : str) : LogEntry :=
  match classify_line line with
  | Ok e => e
  | Raise _ =>
      {| timestamp_str := None; level := u "INFO"; message := line; raw_line := line |}
  end.

(** [needle] occurs in [hay] up to the case of ASCII letters. *)
Fixpoint starts_with_ci (p s : str) : bool :=
  match p, s with
  | [], _ => true
  | a :: p', b :: s' => (ascii_toupper a =? ascii_toupper b) && starts_with_ci p' s'
  | _ :: _, [] => false
  end.

Fixpoint contains_ci (needle hay : str) : bool :=
  starts_with_ci needle hay ||
  match hay with
  | [] => false
  | _ :: t => contains_ci needle t
  end.

(** ** The aggregator, as the specification words it *)

(** The input lines that are not blank, trimmed, in input order. *)
Definition nonblank_lines (log_content : str) : list str :=
  List.filter nonempty (List.map strip (splitlines log_content)).

(** The raw lines of the events of elevated severity, in order. *)
Definition elevated_lines (events : list LogEntry) : list str :=
  List.map raw_line (List.filter (fun e => is_elevated (level e)) events).

(** The time of an event from its raw timestamp: the format with
    milliseconds first, the format with seconds only when that fails, and
    nothing when both fail or when there is no raw timestamp. *)
Definition coerce_timestamp `{P : DatetimeParser} (timestamp_raw : option str) : option Timestamp :=
  match timestamp_raw with
  | None => None
  | Some s =>
      match to_datetime_scalar fmt_millis s with
      | Some t => Some t
      | None => to_datetime_scalar fmt_seconds s
      end
  end.

(** A text of a given shape: in a shape the letter [d] stands for one
    decimal digit and every other character for itself. *)
Fixpoint has_shape `{U : UnicodeData} (shape : list ascii) (s : str) : bool :=
  match shape, s with
  | [], [] => true
  | a :: shape', c :: s' =>
      (if Ascii.eqb a "d" then isdecimal c else c =? N_of_ascii a)
      && has_shape shape' s'
  | _, _ => false
  end.

Definition seconds_shape : list ascii := list_ascii_of_string "dddd-dd-dd dd:dd:dd".
Definition millis_shape : list ascii := list_ascii_of_string ",ddd".

(** Text made of ASCII characters only. *)
Definition ascii_only (s : str) : Prop := Forall (fun c => c < 128) s.

(** Inputs used as examples below. *)
Definition bytes_of (s : string) : list Byte.byte :=
  List.map byte_of_ascii (list_ascii_of_string s).

Definition db_error_line : str :=
  u "2024-06-25 10:00:22,333 ERROR Database connection failed".

(** 250 lines, each of elevated severity. *)
Definition many_errors : str :=
  List.concat (repeat (u "ERROR disk failure" ++ [0x0A]) 250).

(** A summarizer that cannot be reached, with a renderer that wraps the
    text in a paragraph. *)
Definition offline : Collaborators :=
  {| generate_log_summary := fun _ => Raise (ServiceError (u "unreachable"));
     markdown_html := fun s => Ok (u "<p>" ++ s ++ u "</p>") |}.

(** ** ai_logic.py

    The summarizer that [features.py] imports.  The world it runs in is an
    oracle: the key found in the environment, what each call of the client
    library returns or raises, and what writing a line to the standard
    output does. *)
Module AiLogic.

Inductive py_exn :=
| ValueError (msg : str)
| ConnectionError (msg : str)
| LibraryError (msg : str).

(** [str(e)]. *)
Definition exn_str (e : py_exn) : str :=
  match e with
  | ValueError msg => msg
  | ConnectionError msg => msg
  | LibraryError msg => msg
  end.

Inductive attempt (A : Type) :=
| Returned (a : A)
| Raised (e : py_exn).
Arguments Returned {A} a.
Arguments Raised {A} e.

(** A model of the listing; the attribute [supported_generation_methods]
    may be absent. *)
Record GenModel := {
  name : str;
  supported_generation_methods : option (list str)
}.

Record Candidate := {
  candidate_text : attempt str
}.

(** A response, as far as it is read: what reading [parts] and [text]
    gives, and its candidates.  The two are computed from the candidates
    when they are read, and reading them may raise. *)
Record Response := {
  parts : attempt (list str);
  text : attempt str;
  candidates : list Candidate
}.

(** [GenerationConfig(temperature=0.2)]: the temperature as a mantissa and
    an exponent of ten. *)
Record GenerationConfig := {
  temperature : Z * Z
}.

Class GenAI := {
  getenv_GOOGLE_API_KEY : option str;
  configure : str -> attempt unit;
  list_models : attempt (list GenModel);
  GenerativeModel : str -> attempt unit;
  generate_content : str -> str -> GenerationConfig -> attempt (option Response);
  print : str -> attempt unit
}.

(** The calls made to the client library. *)
Inductive call :=
| CallConfigure (api_key : str)
| CallListModels
| CallGenerativeModel (model_name : str)
| CallGenerateContent (model_name prompt : str) (config : GenerationConfig).

(** What a run does that can be seen from outside: a call of the library,
    a line handed to [print]. *)
Inductive event :=
| Called (c : call)
| Printed (line : str).

(** A run of a piece of the module: what it did, in order, and how it
    ended. *)
Record run (A : Type) := Run {
  events : list event;
  outcome : attempt A
}.
Arguments Run {A} events outcome.
Arguments events {A} r.
Arguments outcome {A} r.

#[export] Instance run_ret : MRet run := fun A a => Run [] (Returned a).

(** One statement after another: the second runs when the first has not
    raised. *)
#[export] Instance run_bind : MBind run := fun A B k m =>
  match outcome m with
  | Returned a => Run (events m ++ events (k a)) (outcome (k a))
  | Raised e => Run (events m) (Raised e)
  end.

Definition raise {A} (e : py_exn) : run A := Run [] (Raised e).

(** [try: body  except Exception as e: handler]. *)
Definition try_except {A} (body : run A) (handler : py_exn -> run A) : run A :=
  match outcome body with
  | Returned _ => body
  | Raised e => Run (events body ++ events (handler e)) (outcome (handler e))
  end.

(** Reading an attribute, which may raise. *)
Definition read {A} (a : attempt A) : run A := Run [] a.

Section Library.
Context `{G : GenAI}.

Definition genai_configure (api_key : str) : run unit :=
  Run [Called (CallConfigure api_key)] (configure api_key).

Definition genai_list_models : run (list GenModel) :=
  Run [Called CallListModels] list_models.

Definition genai_GenerativeModel (model_name : str) : run unit :=
  Run [Called (CallGenerativeModel model_name)] (GenerativeModel model_name).

Definition model_generate_content (model_name prompt : str) (config : GenerationConfig)
    : run (option Response) :=
  Run [Called (CallGenerateContent model_name prompt config)]
    (generate_content model_name prompt config).

Definition print_line (line : str) : run unit := Run [Printed line] (print line).

End Library.

(** The calls of a run, and the lines it handed to [print]. *)
Definition calls {A} (r : run A) : list call :=
  omap (fun ev => match ev with Called c => Some c | Printed _ => None end) (events r).

Definition printed {A} (r : run A) : list str :=
  omap (fun ev => match ev with Printed line => Some line | Called _ => None end)
    (events r).

Definition member (x : str) (l : list str) : bool := existsb (str_eqb x) l.

(** [_get_suitable_model], lines 5-33. *)
Definition _get_suitable_model `{G : GenAI} : run str :=
  try_except
    (available_models ← genai_list_models;
     let supported_models :=
       List.map name
         (List.filter
            (fun m =>
               match supported_generation_methods m with
               | Some methods => member (u "generateContent") methods
               | None => false
               end)
            available_models) in
     if member (u "models/gemini-1.5-flash-latest") supported_models
     then mret (u "gemini-1.5-flash-latest")
     else if member (u "models/gemini-1.0-pro") supported_models
     then mret (u "gemini-1.0-pro")
     else if member (u "models/gemini-pro") supported_models
     then mret (u "gemini-pro")
     else
       match supported_models with
       | _ :: _ =>
           match List.find
                   (fun model_name =>
                      negb (contains (u "embedding") model_name)
                      && negb (contains (u "aqa") model_name))
                   supported_models with
           | Some model_name => mret (replace (u "models/") [] model_name)
           | None =>
               raise (ValueError (u "No suitable text generation model found that supports generateContent after filtering."))
           end
       | [] => raise (ValueError (u "No models found that support generateContent."))
       end)
    (fun e =>
       raise (ConnectionError
                (u "Failed to list or select a suitable Generative AI model: "
                 ++ exn_str e))).

(** The prompt of lines 69-93, up to the place of the log snippets. *)
Definition prompt_head : str :=
  join [0x0A]
    [[];
     u "    You are an AI-powered System Health Monitor and Log Forensics Expert. Your mission is to dissect the provided log data and deliver a crystal-clear, actionable summary. Infuse your analysis with a touch of insight and urgency where needed.";
     [];
     u "    Please provide your analysis in the following structured, creative format, using Markdown for readability. Be concise but comprehensive.";
     [];
     u "    ### " ++ [0x23F0] ++ u " Timeline Snapshot:";
     u "    - Identify the primary time range of significant events.";
     [];
     u "    ### " ++ [0x1F6A8] ++ u " Critical Alarms & Issues:";
     u "    - List the most severe errors (e.g., CRITICAL, ERROR) detected.";
     u "    - Briefly explain the nature of each critical issue.";
     [];
     u "    ### " ++ [0x26A0] ++ [0xFE0F] ++ u " Warnings & Potential Bottlenecks:";
     u "    - Detail any warnings or indicators of potential problems (e.g., high resource usage, API throttling, low disk space).";
     [];
     u "    ### " ++ [0x1F4A1] ++ u " Underlying Causes & Insights:";
     u "    - Based on the log context, what are the most probable root causes for the identified problems? Synthesize information rather than just listing.";
     [];
     u "    ### " ++ [0x1F6E0] ++ [0xFE0F] ++ u " Recommended Immediate Actions:";
     u "    - Provide a prioritized list of actionable steps for investigation and resolution.";
     [];
     u "    ---";
     u "    Log Snippets to Analyze:";
     u "    "].

(** The end of the prompt, after the log snippets. *)
Definition prompt_tail : str :=
  join [0x0A]
    [[];
     u "    ---";
     u "    "].

Definition prompt_for (log_snippets : str) : str :=
  prompt_head ++ log_snippets ++ prompt_tail.

(** How a [try] statement of [generate_log_summary] ends: with a [return]
    of the function, or with a value the function goes on with. *)
Inductive flow (A : Type) :=
| Return (answer : str)
| Continue (a : A).
Arguments Return {A} answer.
Arguments Continue {A} a.

(** Lines 95-113 of [generate_log_summary]: the call of the model and the
    reading of its response, with the handler of what they raise. *)
Definition llm_api_call `{G : GenAI} (model_name prompt : str) : run str :=
  let unexpected :=
    u "AI response structure not as expected. Could not extract text from the model's response." in
  try_except
    (response ←
       model_generate_content model_name prompt {| temperature := (2, -1)%Z |};
     match response with
     | Some response =>
         response_parts ← read (parts response);
         match response_parts with
         | _ :: _ => read (text response)
         | [] =>
             match candidates response with
             | candidate :: _ =>
                 t ← read (candidate_text candidate);
                 match t with
                 | _ :: _ => mret t
                 | [] => mret unexpected
                 end
             | [] => mret unexpected
             end
         end
     | None => mret unexpected
     end)
    (fun e =>
       _ ← print_line (u "DEBUG: Error during LLM API call: " ++ exn_str e);
       mret (u "An error occurred while calling the Google Generative AI API: "
             ++ exn_str e
             ++ u ". Please check your API key, network connection, and ensure the model is available in your region.")).

(** [generate_log_summary], lines 36-115. *)
Definition generate_log_summary `{G : GenAI} (log_snippets : str) : run str :=
  match getenv_GOOGLE_API_KEY with
  | None | Some [] =>
      mret (u "ERROR: GOOGLE_API_KEY is not set in your .env file. Please ensure it's configured.")
  | Some GOOGLE_API_KEY =>
      configured ←
        try_except
          (_ ← genai_configure GOOGLE_API_KEY; mret (Continue tt))
          (fun e =>
             mret (Return (u "ERROR: Could not configure Google Generative AI. Check API key format or network: " ++ exn_str e)));
      match configured with
      | Return answer => mret answer
      | Continue _ =>
          model ←
            try_except
              (model_name ← _get_suitable_model;
               _ ← genai_GenerativeModel model_name;
               _ ← print_line (u "DEBUG: Using model: " ++ model_name);
               mret (Continue model_name))
              (fun e =>
                 mret (Return (u "ERROR: Could not initialize Generative Model: " ++ exn_str e)));
          match model with
          | Return answer => mret answer
          | Continue model_name => llm_api_call model_name (prompt_for log_snippets)
          end
      end
  end.

End AiLogic.

(** The collaborators of [features.py] with the summarizer of
    [ai_logic.py] in the place of [generate_log_summary] (the import at line
    10 of features.py).  The function catches what the library raises; what
    [print] raises in the handler of line 111 leaves the function, and is
    not a [UnicodeDecodeError]. *)
Definition with_ai_logic `{G : AiLogic.GenAI} (C : Collaborators) : Collaborators :=
  {| generate_log_summary :=
       fun log_snippets =>
         match AiLogic.outcome (AiLogic.generate_log_summary log_snippets) with
         | AiLogic.Returned summary_text => Ok summary_text
         | AiLogic.Raised e => Raise (ServiceError (AiLogic.exn_str e))
         end;
     markdown_html := @markdown_html C |}.

(** A model of the listing that can generate content, and a name that the
    filter of [_get_suitable_model] lets through. *)
Definition generates (m : AiLogic.GenModel) : bool :=
  match AiLogic.supported_generation_methods m with
  | Some methods => AiLogic.member (u "generateContent") methods
  | None => false
  end.

Definition text_model_name (n : str) : bool :=
  negb (contains (u "embedding") n) && negb (contains (u "aqa") n).

Definition preferred_names : list str :=
  [u "models/gemini-1.5-flash-latest"; u "models/gemini-1.0-pro"; u "models/gemini-pro"].

Definition is_generate_call (c : AiLogic.call) : bool :=
  match c with
  | AiLogic.CallGenerateContent _ _ _ => true
  | _ => false
  end.

(** A call that the library answers by raising. *)
Definition is_raised {A} (a : AiLogic.attempt A) : bool :=
  match a with
  | AiLogic.Raised _ => true
  | AiLogic.Returned _ => false
  end.

Definition call_raises `{G : AiLogic.GenAI} (c : AiLogic.call) : bool :=
  match c with
  | AiLogic.CallConfigure api_key => is_raised (AiLogic.configure api_key)
  | AiLogic.CallListModels => is_raised AiLogic.list_models
  | AiLogic.CallGenerativeModel model_name => is_raised (AiLogic.GenerativeModel model_name)
  | AiLogic.CallGenerateContent model_name prompt config =>
      is_raised (AiLogic.generate_content model_name prompt config)
  end.

(** A text without surrogates, which is what UTF-8 can encode. *)
Definition encodable (s : str) : bool := forallb (fun c => negb (is_surrogate c)) s.

(** A service for the examples: a key, one model, and a generation call
    that fails. *)
Definition failing_service : AiLogic.GenAI :=
  {| AiLogic.getenv_GOOGLE_API_KEY := Some (u "k-123");
     AiLogic.configure := fun _ => AiLogic.Returned tt;
     AiLogic.list_models :=
       AiLogic.Returned
         [ {| AiLogic.name := u "models/embedding-001";
              AiLogic.supported_generation_methods := Some [u "embedContent"] |};
           {| AiLogic.name := u "models/gemini-pro";
              AiLogic.supported_generation_methods :=
                Some [u "generateContent"; u "countTokens"] |} ];
     AiLogic.GenerativeModel := fun _ => AiLogic.Returned tt;
     AiLogic.generate_content :=
       fun _ _ _ => AiLogic.Raised (AiLogic.LibraryError (u "429 quota exceeded"));
     AiLogic.print := fun _ => AiLogic.Returned tt |}.

(** The same service, whose generation call fails with a text that holds a
    lone surrogate. *)
Definition garbled_service : AiLogic.GenAI :=
  {| AiLogic.getenv_GOOGLE_API_KEY := Some (u "k-123");
     AiLogic.configure := @AiLogic.configure failing_service;
     AiLogic.list_models := @AiLogic.list_models failing_service;
     AiLogic.GenerativeModel := @AiLogic.GenerativeModel failing_service;
     AiLogic.generate_content :=
       fun _ _ _ => AiLogic.Raised (AiLogic.LibraryError (u "bad reply " ++ [0xDC80]));
     AiLogic.print := @AiLogic.print failing_service |}.

(** The same service without a key in the environment. *)
Definition keyless_service : AiLogic.GenAI :=
  {| AiLogic.getenv_GOOGLE_API_KEY := None;
     AiLogic.configure := @AiLogic.configure failing_service;
     AiLogic.list_models := @AiLogic.list_models failing_service;
     AiLogic.GenerativeModel := @AiLogic.GenerativeModel failing_service;
     AiLogic.generate_content := @AiLogic.generate_content failing_service;
     AiLogic.print := @AiLogic.print failing_service |}.

(** ** main.py: what the page decides from its inputs

    The page is a sequence of calls that draw widgets.  Modelled here are
    the parts that compute: whether and how the analysis is called (lines
    31-58), whether the timeline is drawn and with which rows and categories
    (lines 68-90). *)
Module Main.

(** The options of the radio at lines 45-49. *)
Inductive format_option := Markdown | HTML.

Definition option_label (o : format_option) : str :=
  match o with
  | Markdown => u "Markdown"
  | HTML => u "HTML"
  end.

(** [str.lower()] on an ASCII label. *)
Definition ascii_tolower (c : char) : char :=
  if (65 <=? c) && (c <=? 90) then c + 32 else c.

Definition lower (s : str) : str := List.map ascii_tolower s.

(** What the page reads: the key of the environment, the file of the
    uploader, the option of the radio, the state of the button. *)
Record Inputs := {
  GOOGLE_API_KEY : option str;
  uploaded_file : option UploadedFile;
  output_choice : format_option;
  process_button : bool
}.

(** The call of [process_logs_and_summarize] at line 58, when the page gets
    there: it stops at line 35 without a key, and calls only with a file
    and a pressed button. *)
Definition analysis `{U : UnicodeData} `{P : DatetimeParser} `{C : Collaborators}
    (i : Inputs) : option (Outcome * list str) :=
  if negb (truthy (GOOGLE_API_KEY i)) then None
  else
    let output_format := lower (option_label (output_choice i)) in
    match uploaded_file i with
    | Some file =>
        if process_button i
        then Some (process_logs_and_summarize (Some file) output_format)
        else None
    | None => None
    end.

(** Line 73. *)
Definition severity_order : list str :=
  [u "CRITICAL"; u "FATAL"; u "ERROR"; u "WARN"; u "WARNING"; u "INFO"; u "DEBUG"].

(** Lines 76-84. *)
Definition color_map : gmap (list N) (list N) :=
  list_to_map
    [(u "CRITICAL", u "#DC143C"); (u "FATAL", u "#8B0000"); (u "ERROR", u "#FF4500");
     (u "WARN", u "#FFD700"); (u "WARNING", u "#FFA500"); (u "INFO", u "#1E90FF");
     (u "DEBUG", u "#808080")].

(** The condition of line 68; the frame of [features.py] always has its
    [timestamp] column. *)
Definition shows_timeline (df_logs : option DataFrame) : bool :=
  match df_logs with
  | Some rows =>
      negb (bool_decide (rows = [])) && existsb (fun row => negb (isnull (timestamp row))) rows
  | None => false
  end.

(** Lines 87-90: the rows with a timestamp, each with its level as a
    category, which is missing for a level outside [severity_order]. *)
Definition df_plot (rows : DataFrame) : list (Row * option str) :=
  List.map
    (fun row =>
       (row, if existsb (str_eqb (level (entry row))) severity_order
             then Some (level (entry row)) else None))
    (List.filter (fun row => negb (isnull (timestamp row))) rows).

End Main.

(** ** Lemmas on the matcher *)

Section Matcher.
Context `{U : UnicodeData}.

Lemma ms_skip_0 st : ms_skip 0 st = st.
Proof. destruct st. unfold ms_skip. simpl. f_equal. lia. Qed.

Lemma ms_skip_skip a b st : ms_skip b (ms_skip a st) = ms_skip (a + b) st.
Proof.
  unfold ms_skip. simpl. rewrite drop_drop. f_equal. lia.
Qed.

Lemma match_classes_app la lb s :
  match_classes (la ++ lb) s
  = match_classes la s && match_classes lb (drop (length la) s).
Proof.
  revert s. induction la as [|cs la IH]; intros s; simpl.
  - reflexivity.
  - destruct s as [|c s]; simpl; [reflexivity|].
    rewrite IH. now rewrite andb_assoc.
Qed.

(** A plain sequence of characters matches in one way only. *)
Lemma rmatch_flat r : forall l, flat r = Some l ->
  forall A (k : mstate -> option A) st,
    rmatch r st k
    = if match_classes l (ms_rest st) then k (ms_skip (length l) st) else None.
Proof.
  induction r; intros l Hl A k st; simpl in Hl; try discriminate.
  - inversion Hl; subst. simpl. now rewrite ms_skip_0.
  - inversion Hl; subst. simpl. destruct st as [p s g]. simpl.
    destruct s as [|c t]; [reflexivity|]. simpl.
    rewrite andb_true_r. unfold ms_advance, ms_skip. simpl.
    rewrite drop_0. now replace (p + 1)%nat with (S p) by lia.
  - destruct (flat r1) as [la|] eqn:Ha; [|discriminate].
    destruct (flat r2) as [lb|] eqn:Hb; [|discriminate].
    simpl in Hl. inversion Hl; subst. simpl.
    rewrite (IHr1 la eq_refl). rewrite match_classes_app.
    destruct (match_classes la (ms_rest st)); simpl; [|reflexivity].
    rewrite (IHr2 lb eq_refl). simpl.
    now rewrite ms_skip_skip, length_app.
Qed.

(** Greedy repetition stops at the longest run when the rest of the pattern
    accepts there. *)
Lemma star_loop_longest {A} test (k : mstate -> option A) g s : forall pos,
  is_Some (k (MState (pos + span_len test s) (drop (span_len test s) s) g)) ->
  star_loop test k pos g s
  = k (MState (pos + span_len test s) (drop (span_len test s) s) g).
Proof.
  induction s as [|c t IH]; intros pos Hk; simpl in *.
  - now rewrite Nat.add_0_r.
  - destruct (test c); simpl in *.
    + replace (pos + S (span_len test t))%nat with (S pos + span_len test t)%nat in * by lia.
      rewrite (IH (S pos) Hk). destruct Hk as [x Hx]. now rewrite Hx.
    + now rewrite Nat.add_0_r.
Qed.

Lemma acts_as_star cs : acts_as (RStar cs) (skip_class cs).
Proof.
  intros A k Hk st. simpl. rewrite star_loop_longest; [reflexivity | apply Hk].
Qed.

Lemma acts_as_seq r1 r2 f1 f2 :
  acts_as r1 f1 -> acts_as r2 f2 -> acts_as (RSeq r1 r2) (fun st => f2 (f1 st)).
Proof.
  intros H1 H2 A k Hk st. simpl.
  rewrite H1.
  - now apply H2.
  - intros st'. rewrite H2 by assumption. apply Hk.
Qed.

Lemma acts_as_group name r f :
  acts_as r f -> acts_as (RGroup name r) (fun st => ms_close name (ms_pos st) (f st)).
Proof.
  intros Hr A k Hk st. simpl. rewrite Hr; [reflexivity|].
  intros st'. apply Hk.
Qed.

Lemma flat_rseq_chars l : flat (rseq (List.map RChar l)) = Some l.
Proof.
  induction l as [|cs l IH]; [reflexivity|].
  destruct l as [|cs' l]; [reflexivity|].
  change (rseq (List.map RChar (cs :: cs' :: l)))
    with (RSeq (RChar cs) (rseq (List.map RChar (cs' :: l)))).
  cbn [flat]. rewrite IH. reflexivity.
Qed.

Lemma flat_lit w : flat (lit w) = Some (List.map CLit (u w)).
Proof.
  unfold lit, rlit. rewrite <- flat_rseq_chars. now rewrite List.map_map.
Qed.

Lemma match_classes_lit w s : match_classes (List.map CLit w) s = starts_with w s.
Proof.
  revert s. induction w as [|a w IH]; intros [|c s]; simpl; try reflexivity.
  now rewrite IH.
Qed.

Lemma rmatch_lit w {A} (k : mstate -> option A) st :
  rmatch (lit w) st k
  = if starts_with (u w) (ms_rest st) then k (ms_skip (length (u w)) st) else None.
Proof.
  rewrite (rmatch_flat _ _ (flat_lit w)), match_classes_lit.
  now rewrite length_map.
Qed.

(** An optional literal character, when the rest cannot fail. *)
Lemma acts_as_opt_char c :
  length (u c) = 1%nat -> acts_as (ROpt (lit c)) (skip_char c).
Proof.
  intros Hc A k Hk st. simpl. rewrite rmatch_lit, Hc. unfold skip_char.
  destruct (starts_with (u c) (ms_rest st)); [|reflexivity].
  destruct (Hk (ms_skip 1 st)) as [x Hx]. now rewrite Hx.
Qed.

(** An alternation of literals, when the rest cannot fail: the first
    alternative that fits is the one taken. *)
Lemma rmatch_alt_lits ws {A} (k : mstate -> option A) :
  (forall st, is_Some (k st)) -> ws <> [] -> forall st,
  rmatch (ralt (List.map lit ws)) st k
  = match List.find (fun w => starts_with (u w) (ms_rest st)) ws with
    | Some w => k (ms_skip (length (u w)) st)
    | None => None
    end.
Proof.
  intros Hk. induction ws as [|w ws IH]; intros Hne st; [congruence|].
  destruct ws as [|w' ws].
  - simpl. rewrite rmatch_lit.
    now destruct (starts_with (u w) (ms_rest st)).
  - change (ralt (List.map lit (w :: w' :: ws)))
      with (RAlt (lit w) (ralt (List.map lit (w' :: ws)))).
    simpl rmatch. rewrite rmatch_lit. simpl List.find.
    destruct (starts_with (u w) (ms_rest st)).
    + destruct (Hk (ms_skip (length (u w)) st)) as [x Hx]. now rewrite Hx.
    + now apply IH.
Qed.

Lemma rmatch_level_group {A} (k : mstate -> option A) :
  (forall st, is_Some (k st)) -> forall st,
  rmatch (RSeq (RGroup "level" level_re) (ROpt (lit "]"))) st k
  = match scan_level_at st with
    | Some st' => k st'
    | None => None
    end.
Proof.
  intros Hk st.
  change (rmatch (RSeq (RGroup "level" level_re) (ROpt (lit "]"))) st k)
    with (rmatch (ralt (List.map lit level_names)) st
            (fun st' => rmatch (ROpt (lit "]")) (ms_close "level" (ms_pos st) st') k)).
  rewrite rmatch_alt_lits.
  - unfold scan_level_at, first_level.
    destruct (List.find _ level_names) as [w|]; [|reflexivity].
    cbn [mbind option_bind].
    now rewrite (acts_as_opt_char "]" eq_refl) by assumption.
  - intros st'. rewrite (acts_as_opt_char "]" eq_refl) by assumption. apply Hk.
  - discriminate.
Qed.

Lemma acts_as_level :
  acts_as (ROpt (rseq [ROpt (lit "["); RGroup "level" level_re; ROpt (lit "]")]))
          scan_level.
Proof.
  intros A k Hk st.
  set (after := RSeq (RGroup "level" level_re) (ROpt (lit "]"))).
  change (rmatch _ st k)
    with (match
            match rmatch (lit "[") st (fun s1 => rmatch after s1 k) with
            | Some x => Some x
            | None => rmatch after st k
            end
          with
          | Some x => Some x
          | None => k st
          end).
  subst after. rewrite rmatch_lit.
  rewrite !(rmatch_level_group k Hk). unfold scan_level.
  destruct (starts_with (u "[") (ms_rest st)).
  - change (length (u "[")) with 1%nat.
    destruct (scan_level_at (ms_skip 1 st)) as [s1|].
    + destruct (Hk s1) as [x Hx]. now rewrite Hx.
    + destruct (scan_level_at st) as [s2|]; simpl; [|reflexivity].
      destruct (Hk s2) as [x Hx]. now rewrite Hx.
  - destruct (scan_level_at st) as [s2|]; simpl; [|reflexivity].
    destruct (Hk s2) as [x Hx]. now rewrite Hx.
Qed.

Lemma acts_as_timestamp :
  acts_as (ROpt (RGroup "timestamp_str" timestamp_re)) scan_timestamp.
Proof.
  intros A k Hk st.
  change (rmatch (ROpt (RGroup "timestamp_str" timestamp_re)) st k)
    with (match rmatch (RSeq ts_seconds_re (ROpt ts_millis_re)) st
                  (fun st' => k (ms_close "timestamp_str" (ms_pos st) st')) with
          | Some x => Some x
          | None => k st
          end).
  cbn [rmatch].
  rewrite (rmatch_flat ts_seconds_re ts_seconds_classes eq_refl).
  unfold scan_timestamp.
  destruct (match_classes ts_seconds_classes (ms_rest st)); [|reflexivity].
  change (length ts_seconds_classes) with 19%nat.
  rewrite (rmatch_flat ts_millis_re ts_millis_classes eq_refl).
  change (length ts_millis_classes) with 4%nat.
  destruct (match_classes ts_millis_classes (ms_rest (ms_skip 19 st))).
  - destruct (Hk (ms_close "timestamp_str" (ms_pos st) (ms_skip 4 (ms_skip 19 st))))
      as [x Hx]. now rewrite Hx.
  - destruct (Hk (ms_close "timestamp_str" (ms_pos st) (ms_skip 19 st))) as [x Hx].
    now rewrite Hx.
Qed.

Lemma acts_as_log_pattern_body :
  acts_as
    (RSeq (ROpt (RGroup "timestamp_str" timestamp_re))
      (RSeq (RStar CSpace)
        (RSeq (ROpt (rseq [ROpt (lit "["); RGroup "level" level_re; ROpt (lit "]")]))
          (RSeq (RStar CSpace) (RGroup "message" (RStar CDot))))))
    (fun st => scan_message (skip_class CSpace (scan_level (skip_class CSpace
                 (scan_timestamp st))))).
Proof.
  exact (acts_as_seq _ _ _ _ acts_as_timestamp
    (acts_as_seq _ _ _ _ (acts_as_star CSpace)
      (acts_as_seq _ _ _ _ acts_as_level
        (acts_as_seq _ _ _ _ (acts_as_star CSpace)
          (acts_as_group "message" _ _ (acts_as_star CDot)))))).
Qed.

(** The matcher on [log_pattern] finds what the direct reading finds, on
    every subject. *)
Lemma re_match_log_pattern line :
  re_match log_pattern line = Some (finish line (scan line)).
Proof.
  unfold re_match.
  match goal with
  | |- rmatch _ ?st ?k = _ =>
      change (rmatch log_pattern st k)
        with (if bool_decide (0%nat = 0%nat)
              then rmatch
                (RSeq (ROpt (RGroup "timestamp_str" timestamp_re))
                  (RSeq (RStar CSpace)
                    (RSeq (ROpt (rseq [ROpt (lit "["); RGroup "level" level_re;
                                       ROpt (lit "]")]))
                      (RSeq (RStar CSpace) (RGroup "message" (RStar CDot))))))
                st k
              else None)
  end.
  rewrite bool_decide_eq_true_2 by reflexivity.
  rewrite acts_as_log_pattern_body; [reflexivity|].
  intros st. eexists. reflexivity.
Qed.

End Matcher.

(** ** Lemmas on the direct reading *)

Section Scan.
Context `{U : UnicodeData}.

Lemma starts_with_app a b s :
  starts_with (a ++ b) s = true -> starts_with a s = true.
Proof.
  revert s. induction a as [|x a IH]; intros s Hs; [reflexivity|].
  destruct s as [|c s]; simpl in *; [discriminate|].
  apply andb_true_iff in Hs as [-> Hs]. simpl. now apply IH.
Qed.

Lemma starts_with_take p s : starts_with p s = true -> take (length p) s = p.
Proof.
  revert s. induction p as [|x p IH]; intros s Hs; [reflexivity|].
  destruct s as [|c s]; simpl in *; [discriminate|].
  apply andb_true_iff in Hs as [Hx Hs]. apply N.eqb_eq in Hx. subst.
  f_equal. now apply IH.
Qed.

Lemma first_level_spec s w :
  first_level s = Some w ->
  In w level_names /\ w <> "WARNING"%string /\ starts_with (u w) s = true.
Proof.
  unfold first_level, level_names. cbn [List.find].
  destruct (starts_with (u "INFO") s) eqn:E1;
    [intros [= <-]; repeat split; [simpl; tauto | discriminate | assumption]|].
  destruct (starts_with (u "WARN") s) eqn:E2;
    [intros [= <-]; repeat split; [simpl; tauto | discriminate | assumption]|].
  destruct (starts_with (u "WARNING") s) eqn:E3.
  { apply (starts_with_app (u "WARN") (u "ING")) in E3. congruence. }
  destruct (starts_with (u "ERROR") s) eqn:E4;
    [intros [= <-]; repeat split; [simpl; tauto | discriminate | assumption]|].
  destruct (starts_with (u "DEBUG") s) eqn:E5;
    [intros [= <-]; repeat split; [simpl; tauto | discriminate | assumption]|].
  destruct (starts_with (u "CRITICAL") s) eqn:E6;
    [intros [= <-]; repeat split; [simpl; tauto | discriminate | assumption]|].
  destruct (starts_with (u "FATAL") s) eqn:E7;
    [intros [= <-]; repeat split; [simpl; tauto | discriminate | assumption]|].
  discriminate.
Qed.

Lemma wf_skip line n st : wf line st -> wf line (ms_skip n st).
Proof. unfold wf. simpl. intros ->. now rewrite drop_drop. Qed.

Lemma wf_close line name a st : wf line st -> wf line (ms_close name a st).
Proof. exact id. Qed.

Lemma wf_skip_class line cs st : wf line st -> wf line (skip_class cs st).
Proof. apply wf_skip. Qed.

Lemma wf_skip_char line c st : wf line st -> wf line (skip_char c st).
Proof.
  intros Hst. unfold skip_char. destruct (starts_with _ _); [now apply wf_skip | assumption].
Qed.

Lemma wf_scan_timestamp line st : wf line st -> wf line (scan_timestamp st).
Proof.
  intros Hst. unfold scan_timestamp.
  destruct (match_classes ts_seconds_classes _); [|assumption].
  apply wf_close. destruct (match_classes ts_millis_classes _); auto using wf_skip.
Qed.

(** What a successful reading of the level changes. *)
Lemma scan_level_at_spec line st st' :
  wf line st -> scan_level_at st = Some st' ->
  wf line st' /\
  exists w, In w level_names /\ w <> "WARNING"%string
    /\ substr line (ms_pos st) (ms_pos st + length (u w)) = u w
    /\ ms_groups st'
       = <["level"%string := (ms_pos st, (ms_pos st + length (u w))%nat)]> (ms_groups st).
Proof.
  intros Hst. unfold scan_level_at.
  destruct (first_level (ms_rest st)) as [w|] eqn:Hw; [|discriminate].
  cbn [mbind option_bind]. intros [= <-].
  apply first_level_spec in Hw as (Hin & Hne & Hsw).
  split; [now apply wf_skip_char, wf_close, wf_skip|].
  exists w. repeat split; try assumption.
  - unfold substr. replace (ms_pos st + length (u w) - ms_pos st)%nat
      with (length (u w)) by lia.
    rewrite <- Hst. now apply starts_with_take.
  - unfold skip_char. destruct (starts_with (u "]") _); reflexivity.
Qed.

Lemma scan_level_cases line st :
  wf line st ->
  scan_level st = st \/
  (wf line (scan_level st) /\
   exists a w, In w level_names /\ w <> "WARNING"%string
     /\ substr line a (a + length (u w)) = u w
     /\ ms_groups (scan_level st)
        = <["level"%string := (a, (a + length (u w))%nat)]> (ms_groups st)).
Proof.
  intros Hst. unfold scan_level.
  destruct (starts_with (u "[") (ms_rest st)).
  - destruct (scan_level_at (ms_skip 1 st)) as [s1|] eqn:E1.
    + right. destruct (scan_level_at_spec line _ _ (wf_skip line 1 st Hst) E1)
        as (Hwf & w & ? & ? & ? & ?).
      split; [assumption|]. exists (ms_pos (ms_skip 1 st)), w. auto.
    + destruct (scan_level_at st) as [s2|] eqn:E2; [|now left].
      right. destruct (scan_level_at_spec line _ _ Hst E2) as (Hwf & w & ? & ? & ? & ?).
      split; [assumption|]. exists (ms_pos st), w. auto.
  - destruct (scan_level_at st) as [s2|] eqn:E2; [|now left].
    right. destruct (scan_level_at_spec line _ _ Hst E2) as (Hwf & w & ? & ? & ? & ?).
    split; [assumption|]. exists (ms_pos st), w. auto.
Qed.

Lemma wf_scan_level line st : wf line st -> wf line (scan_level st).
Proof.
  intros Hst. destruct (scan_level_cases line st Hst) as [-> | [? _]]; assumption.
Qed.

Lemma scan_timestamp_cases st :
  scan_timestamp st = st \/
  exists e, ms_groups (scan_timestamp st)
            = <["timestamp_str"%string := (ms_pos st, e)]> (ms_groups st).
Proof.
  unfold scan_timestamp.
  destruct (match_classes ts_seconds_classes _); [|now left].
  right. destruct (match_classes ts_millis_classes _); eexists; reflexivity.
Qed.

(** The groups of the match, one by one. *)
Lemma scan_message_span line :
  exists a b, ms_groups (scan line) !! "message"%string = Some (a, b).
Proof.
  unfold scan, scan_message, ms_close. cbn [ms_groups].
  eexists _, _. apply lookup_insert_eq.
Qed.

Lemma scan_level_span line : level_span_ok line (ms_groups (scan line)).
Proof.
  unfold scan, scan_message, ms_close, skip_class. cbn [ms_groups ms_skip].
  intros a b. rewrite lookup_insert_ne by discriminate.
  set (st1 := ms_skip _ (scan_timestamp _)).
  assert (Hwf1 : wf line st1).
  { apply wf_skip_class, wf_scan_timestamp. reflexivity. }
  assert (H1 : ms_groups st1 !! "level"%string = None).
  { subst st1. cbn [ms_groups ms_skip].
    destruct (scan_timestamp_cases (MState 0 line ∅)) as [-> | [e ->]].
    - apply lookup_empty.
    - rewrite lookup_insert_ne by discriminate. apply lookup_empty. }
  destruct (scan_level_cases line st1 Hwf1) as [-> | (_ & a' & w & Hin & Hne & Hsub & ->)].
  - rewrite H1. discriminate.
  - rewrite lookup_insert_eq. intros [= <- <-]. eauto.
Qed.

End Scan.

(** ** Lemmas on the classifier *)

Section ClassifierFacts.
Context `{U : UnicodeData}.

Lemma upper_ascii s :
  Forall (fun c => c < 128) s -> upper s = List.map ascii_toupper s.
Proof.
  unfold upper. induction 1 as [|c s Hc _ IH]; [reflexivity|].
  simpl. now rewrite toupper_full_ascii, IH.
Qed.

Lemma upper_level_name w : In w level_names -> upper (u w) = u w.
Proof.
  intros Hin. rewrite upper_ascii.
  - simpl in Hin. intuition (subst; reflexivity).
  - simpl in Hin. intuition (subst; repeat constructor).
Qed.

Lemma level_name_structural w :
  In w level_names -> w <> "WARNING"%string -> In (u w) structural_levels.
Proof.
  intros Hin Hne. simpl in Hin.
  intuition (subst; try congruence; simpl; tauto).
Qed.

Lemma level_name_nonempty w : In w level_names -> truthy (Some (u w)) = true.
Proof. intros Hin. simpl in Hin. intuition (subst; reflexivity). Qed.

Lemma structural_levels_severities l : In l structural_levels -> In l severities.
Proof. unfold structural_levels, severities. simpl. tauto. Qed.

(** The level group of a match on the line pattern. *)
Lemma group_level_cases line :
  group (finish line (scan line)) "level" = None \/
  exists w, In w level_names /\ w <> "WARNING"%string
    /\ group (finish line (scan line)) "level" = Some (u w).
Proof.
  unfold group, finish. cbn [m_spans m_string].
  destruct (ms_groups (scan line) !! "level"%string) as [[a b]|] eqn:E; [|now left].
  right. destruct (scan_level_span line a b E) as (w & ? & ? & ->). eauto.
Qed.

Lemma group_message_some line :
  exists s, group (finish line (scan line)) "message" = Some s.
Proof.
  unfold group, finish. cbn [m_spans m_string].
  destruct (scan_message_span line) as (a & b & ->). eauto.
Qed.

(** The structured match never raises, and the level it gives is one of
    the six names the pattern can read (or the default). *)
Lemma structured_match_ok line :
  exists ts lvl msg,
    structured_match line = Ok (ts, lvl, msg) /\ In lvl structural_levels.
Proof.
  unfold structured_match. rewrite re_match_log_pattern.
  destruct (group_message_some line) as [s ->]. cbn [strip_method mbind result_bind].
  destruct (group_level_cases line) as [-> | (w & Hin & Hne & ->)].
  - cbn [truthy]. rewrite !andb_false_r. eexists _, _, _. split; [reflexivity|].
    simpl. tauto.
  - rewrite (level_name_nonempty w Hin).
    change (default [] (Some (u w))) with (u w).
    rewrite (upper_level_name w Hin).
    eexists _, _, _. split; [reflexivity|]. now apply level_name_structural.
Qed.

Lemma keyword_override_cases line lvl :
  keyword_override line lvl = u "ERROR" \/
  keyword_override line lvl = u "WARN" \/
  keyword_override line lvl = lvl.
Proof.
  unfold keyword_override.
  destruct (_ && _ && _ && _); [now left|].
  destruct (_ && _ && _); [right; now left | right; now right].
Qed.

Lemma keyword_override_structural line lvl :
  In lvl structural_levels -> In (keyword_override line lvl) structural_levels.
Proof.
  intros Hl. destruct (keyword_override_cases line lvl) as [-> | [-> | ->]];
    [simpl; tauto | simpl; tauto | assumption].
Qed.

Lemma classify_line_ok line :
  exists e, classify_line line = Ok e
    /\ In (level e) structural_levels /\ raw_line e = line.
Proof.
  unfold classify_line.
  destruct (structured_match_ok line) as (ts & lvl & msg & -> & Hl).
  cbn [mbind result_bind]. eexists. split; [reflexivity|]. cbn [level raw_line].
  split; [now apply keyword_override_structural | reflexivity].
Qed.

Lemma classify_line_classify line : classify_line line = Ok (classify line).
Proof.
  unfold classify. destruct (classify_line_ok line) as (e & -> & _). reflexivity.
Qed.

Lemma classify_raw_line line : raw_line (classify line) = line.
Proof.
  unfold classify. destruct (classify_line_ok line) as (e & -> & _ & He). exact He.
Qed.

End ClassifierFacts.

(** ** Lemmas on the aggregator *)

Section AggregatorFacts.
Context `{U : UnicodeData} `{P : DatetimeParser}.

Lemma loop_body_blank max_lines acc l :
  strip l = [] -> loop_body max_lines acc l = Ok acc.
Proof. intros El. unfold loop_body. destruct acc. now rewrite El. Qed.

Lemma loop_body_line max_lines parsed raw l :
  strip l <> [] ->
  loop_body max_lines (parsed, raw) l
  = Ok (parsed ++ [classify (strip l)],
        if is_elevated (level (classify (strip l))) then
          if (Z.of_nat (length raw) <? max_lines)%Z then raw ++ [strip l] else raw
        else raw).
Proof.
  intros El. unfold loop_body.
  rewrite classify_line_classify.
  destruct (strip l) as [|c t]; [congruence | reflexivity].
Qed.

(** The loop, from any state of its two accumulators. *)
Lemma for_each_loop_body max_lines lines : forall parsed raw,
  for_each (loop_body max_lines) lines (parsed, raw)
  = Ok (parsed ++ List.map classify (List.filter nonempty (List.map strip lines)),
        raw ++ take (Z.to_nat max_lines - length raw)
                 (elevated_lines
                    (List.map classify (List.filter nonempty (List.map strip lines))))).
Proof.
  induction lines as [|l lines IH]; intros parsed raw.
  - simpl. unfold elevated_lines. simpl. now rewrite take_nil, !app_nil_r.
  - cbn [for_each List.map List.filter].
    destruct (strip l) as [|c t] eqn:El.
    + rewrite loop_body_blank by assumption.
      cbn [mbind result_bind nonempty]. apply IH.
    + rewrite loop_body_line by congruence.
      cbn [mbind result_bind]. rewrite IH. rewrite El. cbn [nonempty].
      f_equal. f_equal.
      * now rewrite <- app_assoc.
      * unfold elevated_lines. cbn [List.map List.filter].
        destruct (is_elevated (level (classify (c :: t)))) eqn:Ee; [|reflexivity].
        cbn [List.map]. rewrite classify_raw_line.
        destruct (Z.ltb_spec (Z.of_nat (length raw)) max_lines) as [Hlt | Hge].
        -- rewrite length_app. cbn [length].
           replace (Z.to_nat max_lines - length raw)%nat
             with (S (Z.to_nat max_lines - (length raw + 1))) by lia.
           cbn [take]. now rewrite <- app_assoc.
        -- replace (Z.to_nat max_lines - length raw)%nat with O by lia.
           reflexivity.
Qed.

Lemma length_timestamp_column entries :
  length (timestamp_column entries) = length entries.
Proof.
  unfold timestamp_column, to_datetime, fillna.
  destruct (_ && _).
  - destruct (existsb _ _).
    + rewrite length_zip_with, !length_map. lia.
    + now rewrite !length_map.
  - now rewrite length_map.
Qed.

Lemma map_entry_zip entries : forall ts,
  length ts = length entries ->
  List.map entry (zip_with (fun e t => {| entry := e; timestamp := t |}) entries ts)
  = entries.
Proof.
  induction entries as [|e es IH]; intros [|t ts] Hlen; simpl in *;
    try discriminate; [reflexivity|].
  f_equal. apply IH. lia.
Qed.

Lemma map_entry_make_frame entries : List.map entry (make_frame entries) = entries.
Proof. apply map_entry_zip, length_timestamp_column. Qed.

(** [parse_log_data] as a whole. *)
Lemma parse_log_data_eq log_content max_lines :
  parse_log_data log_content max_lines
  = Ok {| df_logs := make_frame (List.map classify (nonblank_lines log_content));
          error_warning_raw_lines :=
            take (Z.to_nat max_lines)
              (elevated_lines (List.map classify (nonblank_lines log_content))) |}.
Proof.
  unfold parse_log_data. rewrite for_each_loop_body.
  cbn [mbind result_bind length app]. now rewrite Nat.sub_0_r.
Qed.

Lemma fillna_map {A B} (f g : A -> option B) l :
  fillna (List.map f l) (List.map g l)
  = List.map (fun x => if isnull (f x) then g x else f x) l.
Proof. unfold fillna. induction l as [|x l IH]; simpl; [reflexivity | now rewrite IH]. Qed.

(** The column of lines 89-98 is the coercion of the specification, row by
    row. *)
Lemma timestamp_column_eq entries :
  timestamp_column entries
  = List.map (fun e => coerce_timestamp (timestamp_str e)) entries.
Proof.
  unfold timestamp_column, to_datetime.
  destruct (negb (bool_decide (entries = [])) && negb (forallb isnull (List.map timestamp_str entries)))
    eqn:Hcond.
  - destruct (existsb isnull _) eqn:Hnull.
    + rewrite fillna_map, List.map_map. apply List.map_ext. intros e.
      destruct (timestamp_str e) as [s|]; [|reflexivity]. simpl.
      now destruct (to_datetime_scalar fmt_millis s).
    + rewrite List.map_map. apply List.map_ext_in. intros e He.
      assert (Hx : isnull (timestamp_str e ≫= to_datetime_scalar fmt_millis) = false).
      { destruct (isnull _) eqn:E; [|reflexivity].
        assert (existsb isnull
                  (List.map (fun o => o ≫= to_datetime_scalar fmt_millis)
                     (List.map timestamp_str entries)) = true); [|congruence].
        apply existsb_exists. eexists. split; [|exact E].
        rewrite List.map_map. apply in_map_iff. eauto. }
      destruct (timestamp_str e) as [s|]; [|discriminate]. simpl in *.
      now destruct (to_datetime_scalar fmt_millis s).
  - apply andb_false_iff in Hcond as [Hempty | Hall].
    + apply negb_false_iff, bool_decide_eq_true in Hempty. now subst.
    + apply negb_false_iff in Hall. rewrite forallb_forall in Hall.
      apply List.map_ext_in. intros e He.
      specialize (Hall (timestamp_str e) (in_map _ _ _ He)).
      now destruct (timestamp_str e).
Qed.

End AggregatorFacts.

(** ** ASCII text is read the same under every Unicode database *)

Section Transfer.
Variables U1 U2 : UnicodeData.

Lemma in_class_transfer cs c :
  c < 128 -> @in_class U1 cs c = @in_class U2 cs c.
Proof.
  intros Hc. destruct cs; simpl; try reflexivity.
  now rewrite !isdecimal_ascii.
Qed.

Lemma star_loop_transfer {A} test1 test2 (k1 k2 : mstate -> option A) g s :
  ascii_only s ->
  (forall c, c < 128 -> test1 c = test2 c) ->
  (forall st, ascii_only (ms_rest st) -> k1 st = k2 st) ->
  forall pos, star_loop test1 k1 pos g s = star_loop test2 k2 pos g s.
Proof.
  intros Hs Ht Hk. induction Hs as [|c t Hc Hs IH]; intros pos; simpl.
  - apply Hk. constructor.
  - rewrite (Ht c Hc), (IH (S pos)), (Hk (MState pos (c :: t) g)); [reflexivity|].
    now constructor.
Qed.

Lemma rmatch_transfer r : forall A (k1 k2 : mstate -> option A) st,
  ascii_only (ms_rest st) ->
  (forall st', ascii_only (ms_rest st') -> k1 st' = k2 st') ->
  @rmatch U1 A r st k1 = @rmatch U2 A r st k2.
Proof.
  induction r; intros A k1 k2 st Hst Hk; simpl.
  - now apply Hk.
  - destruct (bool_decide _); [now apply Hk | reflexivity].
  - destruct (ms_rest st) as [|c t] eqn:E; [reflexivity|].
    inversion Hst; subst. rewrite (in_class_transfer cs c) by assumption.
    destruct (in_class cs c); [|reflexivity]. now apply Hk.
  - apply IHr1; [assumption|]. intros st' Hst'. now apply IHr2.
  - rewrite (IHr1 A k1 k2 st Hst Hk), (IHr2 A k1 k2 st Hst Hk). reflexivity.
  - rewrite (IHr A k1 k2 st Hst Hk), (Hk st Hst). reflexivity.
  - apply star_loop_transfer; [assumption | apply in_class_transfer | assumption].
  - apply IHr; [assumption|]. intros st' Hst'. now apply Hk.
Qed.

Lemma re_match_transfer r s :
  ascii_only s -> @re_match U1 r s = @re_match U2 r s.
Proof. intros Hs. unfold re_match. now apply rmatch_transfer. Qed.

Lemma upper_transfer s : ascii_only s -> @upper U1 s = @upper U2 s.
Proof. intros Hs. now rewrite !upper_ascii. Qed.

Lemma group_ascii m name s :
  ascii_only (m_string m) -> group m name = Some s -> ascii_only s.
Proof.
  unfold group, substr. intros Hm.
  destruct (m_spans m !! name) as [[a b]|]; [|discriminate].
  intros [= <-]. apply Forall_take, Forall_drop, Hm.
Qed.

Lemma re_match_string `{U : UnicodeData} r s m : re_match r s = Some m -> m_string m = s.
Proof.
  unfold re_match.
  assert (Hgen : forall r st (k : mstate -> option Match),
            (forall st' m', k st' = Some m' -> m_string m' = s) ->
            forall m', rmatch r st k = Some m' -> m_string m' = s).
  { clear. intros r. induction r; intros st k Hk m'; simpl.
    - apply Hk.
    - destruct (bool_decide _); [apply Hk | discriminate].
    - destruct (ms_rest st); [discriminate|]. destruct (in_class _ _); [apply Hk | discriminate].
    - apply IHr1. intros st' m''. now apply IHr2.
    - destruct (rmatch r1 st k) eqn:E1.
      + intros [= <-]. now apply (IHr1 st k Hk).
      + now apply IHr2.
    - destruct (rmatch r st k) eqn:E1.
      + intros [= <-]. now apply (IHr st k Hk).
      + apply Hk.
    - generalize (ms_pos st). induction (ms_rest st) as [|c t IHt]; intros pos; simpl.
      + apply Hk.
      + destruct (in_class cs c); [|apply Hk].
        destruct (star_loop _ _ _ _ t) eqn:E.
        * intros [= <-]. now apply (IHt (S pos)).
        * apply Hk.
    - apply IHr. intros st' m''. apply Hk. }
  apply Hgen. now intros st' m' [= <-].
Qed.

Lemma structured_match_transfer line :
  ascii_only line -> @structured_match U1 line = @structured_match U2 line.
Proof.
  intros Hl. unfold structured_match.
  rewrite (re_match_transfer log_pattern line Hl).
  destruct (@re_match U2 log_pattern line) as [m|] eqn:Em; [|reflexivity].
  apply re_match_string in Em.
  destruct (strip_method (group m "message")); [|reflexivity].
  cbn [mbind result_bind].
  destruct (group m "level") as [lv|] eqn:Elv; [|reflexivity].
  cbn [default from_option id].
  rewrite (upper_transfer lv); [reflexivity|].
  apply (group_ascii m "level"); [now rewrite Em | assumption].
Qed.

Lemma classify_line_transfer line :
  ascii_only line -> @classify_line U1 line = @classify_line U2 line.
Proof.
  intros Hl. unfold classify_line, keyword_override.
  now rewrite structured_match_transfer, (upper_transfer line).
Qed.

Lemma int_of_digits_transfer s :
  ascii_only s -> @int_of_digits U1 s = @int_of_digits U2 s.
Proof.
  intros Hs. unfold int_of_digits. generalize 0.
  induction Hs as [|c t Hc _ IH]; intros acc; simpl; [reflexivity|].
  now rewrite !todecimal_ascii, IH.
Qed.

Lemma lstrip_ascii s : ascii_only s -> ascii_only (lstrip s).
Proof.
  induction 1 as [|c t Hc Ht IH]; simpl; [constructor|].
  destruct (isspace c); [assumption | now constructor].
Qed.

Lemma strptime_transfer fmt s :
  ascii_only s -> @strptime U1 fmt s = @strptime U2 fmt s.
Proof.
  intros Hs. unfold strptime.
  destruct (format_regex false fmt) as [r|]; [|reflexivity].
  cbn [mbind option_bind].
  rewrite (re_match_transfer r s Hs).
  destruct (@re_match U2 r s) as [m|] eqn:Em; [|reflexivity].
  cbn [mbind option_bind].
  apply re_match_string in Em.
  assert (Hf : forall name dflt, @field U1 m name dflt = @field U2 m name dflt).
  { intros name dflt. unfold field.
    destruct (group m name) as [g|] eqn:Eg; [|reflexivity].
    apply int_of_digits_transfer, lstrip_ascii.
    apply (group_ascii m name); [now rewrite Em | assumption]. }
  assert (Hfr : @fraction U1 m = @fraction U2 m).
  { unfold fraction.
    destruct (group m "f") as [g|] eqn:Eg; [|reflexivity].
    apply int_of_digits_transfer. apply Forall_app. split.
    - apply (group_ascii m "f"); [now rewrite Em | assumption].
    - apply Forall_forall. intros x Hx. apply list_elem_of_In, repeat_spec in Hx.
      subst. reflexivity. }
  now rewrite !Hf, Hfr.
Qed.

End Transfer.

(** ** The line on which the pattern finds no token *)

Section Fallback.
Context `{U : UnicodeData}.

Lemma length_lstrip s : (length (lstrip s) <= length s)%nat.
Proof.
  induction s as [|c t IH]; simpl; [lia|].
  destruct (isspace c); simpl; lia.
Qed.

Lemma length_rstrip s : (length (rstrip s) <= length s)%nat.
Proof.
  unfold rstrip. rewrite length_rev.
  etransitivity; [apply length_lstrip|]. now rewrite length_rev.
Qed.

(** A trimmed line does not start with white space. *)
Lemma trimmed_no_leading_space line :
  strip line = line -> span_len isspace line = O.
Proof.
  intros Hs. destruct line as [|c t]; [reflexivity|]. simpl.
  destruct (isspace c) eqn:Ec; [|reflexivity].
  exfalso. assert (Hlen : (length (strip (c :: t)) <= length t)%nat).
  { unfold strip. etransitivity; [apply length_rstrip|].
    simpl. rewrite Ec. apply length_lstrip. }
  rewrite Hs in Hlen. simpl in Hlen. lia.
Qed.

Lemma span_len_dot s :
  ~ In 0x0A s -> span_len (in_class CDot) s = length s.
Proof.
  induction s as [|c t IH]; intros Hn; [reflexivity|]. simpl.
  destruct (N.eqb_spec c 10) as [-> | Hc].
  - exfalso. apply Hn. now left.
  - simpl. f_equal. apply IH. intros Hin. apply Hn. now right.
Qed.

Lemma skip_class_groups cs st : ms_groups (skip_class cs st) = ms_groups st.
Proof. reflexivity. Qed.

Lemma scan_timestamp_none line :
  group (finish line (scan line)) "timestamp_str" = None ->
  scan_timestamp (MState 0 line ∅) = MState 0 line ∅.
Proof.
  intros Hg. destruct (scan_timestamp_cases (MState 0 line ∅)) as [E | [e E]];
    [assumption | exfalso].
  revert Hg. unfold group, finish, scan, scan_message, ms_close.
  cbn [m_spans m_string ms_groups].
  rewrite lookup_insert_ne by discriminate.
  set (st1 := skip_class CSpace (scan_timestamp _)).
  assert (Hwf1 : wf line st1).
  { apply wf_skip_class, wf_scan_timestamp. reflexivity. }
  assert (H1 : is_Some (ms_groups st1 !! "timestamp_str"%string)).
  { subst st1. rewrite skip_class_groups, E, lookup_insert_eq. eauto. }
  destruct H1 as [[a b] H1].
  destruct (scan_level_cases line st1 Hwf1) as [-> | (_ & ? & ? & _ & _ & _ & E')].
  - rewrite !skip_class_groups, H1. discriminate.
  - rewrite !skip_class_groups, E', lookup_insert_ne, H1 by discriminate.
    discriminate.
Qed.

Lemma scan_level_none line st1 :
  wf line st1 ->
  st1 = skip_class CSpace (scan_timestamp (MState 0 line ∅)) ->
  group (finish line (scan line)) "level" = None ->
  scan_level st1 = st1.
Proof.
  intros Hwf1 -> Hg.
  destruct (scan_level_cases line _ Hwf1) as [E | (_ & a & w & _ & _ & _ & E)];
    [assumption | exfalso].
  revert Hg. unfold group, finish, scan, scan_message, ms_close.
  cbn [m_spans m_string ms_groups].
  rewrite lookup_insert_ne by discriminate.
  rewrite !skip_class_groups, E, lookup_insert_eq. discriminate.
Qed.

(** Neither a timestamp nor a level: the message group is the whole of a
    trimmed line. *)
Lemma scan_fallback line :
  group (finish line (scan line)) "timestamp_str" = None ->
  group (finish line (scan line)) "level" = None ->
  strip line = line -> ~ In 0x0A line ->
  group (finish line (scan line)) "message" = Some line.
Proof.
  intros Hts Hlv Hstrip Hnl.
  pose proof (scan_timestamp_none line Hts) as E0.
  assert (E1 : skip_class CSpace (MState 0 line ∅) = MState 0 line ∅).
  { unfold skip_class. cbn [ms_rest].
    change (in_class CSpace) with isspace.
    rewrite (trimmed_no_leading_space line Hstrip). apply ms_skip_0. }
  assert (E2 : scan_level (MState 0 line ∅) = MState 0 line ∅).
  { pose proof (scan_level_none line (MState 0 line ∅) eq_refl) as Hn.
    rewrite E0, E1 in Hn. now apply Hn. }
  unfold group, finish. cbn [m_spans m_string].
  unfold scan. rewrite E0, E1, E2, E1.
  unfold scan_message, skip_class, ms_close, ms_skip. cbn [ms_groups ms_pos ms_rest].
  rewrite lookup_insert_eq. rewrite (span_len_dot line Hnl).
  unfold substr. rewrite drop_0. f_equal.
  apply take_ge. rewrite Nat.add_0_l, Nat.sub_0_r. reflexivity.
Qed.

Lemma contains_app_needle a b s :
  contains (a ++ b) s = true -> contains a s = true.
Proof.
  induction s as [|c t IH]; simpl.
  - rewrite !orb_false_r. apply starts_with_app.
  - intros Hc. apply orb_true_iff in Hc as [Hc | Hc].
    + apply starts_with_app in Hc. now rewrite Hc.
    + rewrite (IH Hc). apply orb_true_r.
Qed.

Lemma classify_line_fallback line :
  group (finish line (scan line)) "timestamp_str" = None ->
  group (finish line (scan line)) "level" = None ->
  strip line = line -> ~ In 0x0A line ->
  contains (u "ERROR") (upper line) = false ->
  contains (u "WARN") (upper line) = false ->
  classify_line line
  = Ok {| timestamp_str := None; level := u "INFO"; message := line; raw_line := line |}.
Proof.
  intros Hts Hlv Hstrip Hnl Herr Hwarn.
  unfold classify_line, structured_match. rewrite re_match_log_pattern.
  rewrite Hts, Hlv, (scan_fallback line Hts Hlv Hstrip Hnl).
  cbn [strip_method mbind result_bind truthy]. rewrite Hstrip.
  rewrite !andb_false_r. unfold keyword_override. rewrite Herr, Hwarn.
  destruct (contains (u "WARNING") (upper line)) eqn:Ew; [|reflexivity].
  apply (contains_app_needle (u "WARN") (u "ING")) in Ew. congruence.
Qed.

End Fallback.

(** ** Keywords, whatever the case of their letters *)

Section Keywords.
Context `{U : UnicodeData}.

Lemma ascii_only_check s : forallb is_ascii s = true -> ascii_only s.
Proof.
  intros Hs. apply Forall_forall. intros c Hc.
  rewrite forallb_forall in Hs. apply N.ltb_lt, Hs. now apply list_elem_of_In.
Qed.

Lemma contains_app_r p a b : contains p b = true -> contains p (a ++ b) = true.
Proof.
  intros Hb. induction a as [|c a IH]; [assumption|].
  simpl. rewrite IH. apply orb_true_r.
Qed.

Lemma contains_starts_with p s : starts_with p s = true -> contains p s = true.
Proof. intros Hs. destruct s; simpl; now rewrite Hs. Qed.

Lemma starts_with_ci_upper p : forall s,
  Forall (fun c => c < 128 /\ ascii_toupper c = c) p ->
  starts_with_ci p s = true -> starts_with p (upper s) = true.
Proof.
  induction p as [|a p IH]; intros s Hp Hs; [reflexivity|].
  destruct s as [|b s]; [discriminate|]. simpl in Hs.
  apply andb_true_iff in Hs as [Hab Hs]. apply N.eqb_eq in Hab.
  inversion Hp as [|? ? [Ha Hup] Hp']; subst.
  assert (Hb : b < 128).
  { rewrite Hup in Hab. unfold ascii_toupper in Hab.
    destruct ((97 <=? b) && (b <=? 122)) eqn:E; [|lia].
    apply andb_true_iff in E as [_ E]. apply N.leb_le in E. lia. }
  unfold upper. simpl. rewrite (toupper_full_ascii b Hb). simpl.
  rewrite <- Hab, Hup, N.eqb_refl. simpl. now apply IH.
Qed.

Lemma contains_ci_upper p s :
  Forall (fun c => c < 128 /\ ascii_toupper c = c) p ->
  contains_ci p s = true -> contains p (upper s) = true.
Proof.
  intros Hp. induction s as [|b s IH]; intros Hs; cbn [contains_ci] in Hs.
  - rewrite orb_false_r in Hs. apply contains_starts_with.
    now apply (starts_with_ci_upper p []).
  - apply orb_true_iff in Hs as [Hs | Hs].
    + apply contains_starts_with. now apply (starts_with_ci_upper p (b :: s)).
    + change (upper (b :: s)) with (toupper_full b ++ upper s).
      apply contains_app_r. now apply IH.
Qed.

Lemma keyword_ERROR_upper :
  Forall (fun c => c < 128 /\ ascii_toupper c = c) (u "ERROR").
Proof. repeat constructor. Qed.

End Keywords.

(** ** Lemmas on the pipeline *)

Lemma length_filter_map {A B} (p : B -> bool) (f : A -> B) l :
  length (List.filter p (List.map f l)) = length (List.filter (fun x => p (f x)) l).
Proof.
  induction l as [|x l IH]; simpl; [reflexivity|].
  destruct (p (f x)); simpl; now rewrite IH.
Qed.

Lemma nonblank_lines_nonempty log_content :
  Forall (fun l => l <> []) (nonblank_lines log_content).
Proof.
  apply Forall_forall. intros l Hl. apply list_elem_of_In in Hl.
  apply filter_In in Hl as [_ Hl]. now destruct l.
Qed.

Lemma take_min_length {A} (n : Z) (l : list A) :
  take (Z.to_nat (Z.min n (Z.of_nat (length l)))) l = take (Z.to_nat n) l.
Proof.
  destruct (Z.le_ge_cases n (Z.of_nat (length l))) as [Hle | Hge].
  - now rewrite Z.min_l.
  - rewrite Z.min_r, Nat2Z.id by assumption.
    rewrite firstn_all. symmetry. apply take_ge. lia.
Qed.

(** ** A line that begins with the longer spelling of the warning level *)

Section LeadingWarning.
Context `{U : UnicodeData}.

Lemma match_classes_no_digit l c t :
  c < 128 -> ascii_isdigit c = false -> match_classes (CDigit :: l) (c :: t) = false.
Proof.
  intros Hc Hd. cbn [match_classes in_class]. now rewrite isdecimal_ascii, Hd.
Qed.

Lemma scan_leading_warning rest :
  ms_groups (scan (u "WARNING" ++ rest)) !! "level"%string = Some (0, 4)%nat.
Proof.
  set (line := u "WARNING" ++ rest).
  assert (E0 : scan_timestamp (MState 0 line ∅) = MState 0 line ∅).
  { unfold scan_timestamp. cbn [ms_rest].
    change ts_seconds_classes with (CDigit :: List.tl ts_seconds_classes).
    subst line. change (u "WARNING" ++ rest) with (87 :: (u "ARNING" ++ rest)).
    now rewrite match_classes_no_digit. }
  assert (E1 : skip_class CSpace (MState 0 line ∅) = MState 0 line ∅).
  { unfold skip_class. cbn [ms_rest].
    replace (span_len (in_class CSpace) line) with O by reflexivity.
    apply ms_skip_0. }
  unfold scan. rewrite E0, E1.
  unfold scan_message, ms_close. cbn [ms_groups].
  rewrite lookup_insert_ne by discriminate. rewrite !skip_class_groups.
  unfold scan_level. cbn [ms_rest].
  replace (starts_with (u "[") line) with false by reflexivity.
  unfold scan_level_at. cbn [ms_rest].
  replace (first_level line) with (Some "WARN"%string) by reflexivity.
  cbn [mbind option_bind default from_option id].
  unfold skip_char. destruct (starts_with (u "]") _); apply lookup_insert_eq.
Qed.

Lemma structured_match_leading_warning rest :
  exists ts msg, structured_match (u "WARNING" ++ rest) = Ok (ts, u "WARN", msg).
Proof.
  unfold structured_match. rewrite re_match_log_pattern.
  destruct (group_message_some (u "WARNING" ++ rest)) as [s ->].
  cbn [strip_method mbind result_bind].
  assert (Hl : group (finish (u "WARNING" ++ rest) (scan (u "WARNING" ++ rest))) "level"
               = Some (u "WARN")).
  { unfold group, finish. cbn [m_spans m_string].
    now rewrite scan_leading_warning. }
  rewrite Hl. change (truthy (Some (u "WARN"))) with true.
  change (default [] (Some (u "WARN"))) with (u "WARN").
  rewrite (upper_level_name "WARN") by (simpl; tauto).
  eexists _, _. reflexivity.
Qed.

End LeadingWarning.

(** ** The claims *)

(** Moves the classification of an ASCII literal to the ASCII rows of the
    database, where it can be computed. *)
Ltac to_basic_latin U :=
  repeat (rewrite (structured_match_transfer U BasicLatin)
            by (apply ascii_only_check; reflexivity));
  repeat (rewrite (classify_line_transfer U BasicLatin)
            by (apply ascii_only_check; reflexivity)).

(** C1.  The claim: a level CRITICAL or FATAL given by the structured match
    is never lowered by the keyword override.  The code departs from it: on
    the line [CRITICAL warning disk] the structured match gives CRITICAL and
    the second branch of the override, which guards against WARN and WARNING
    only, replaces it by WARN. *)
Theorem critical_lowered_by_warn_keyword `{U : UnicodeData} :
  structured_match (u "CRITICAL warning disk")
    = Ok (None, u "CRITICAL", u "warning disk")
  /\ classify_line (u "CRITICAL warning disk")
     = Ok {| timestamp_str := None; level := u "WARN";
             message := u "warning disk"; raw_line := u "CRITICAL warning disk" |}
  /\ structured_match (u "[FATAL] shutting down after Warnings")
     = Ok (None, u "FATAL", u "shutting down after Warnings")
  /\ classify_line (u "[FATAL] shutting down after Warnings")
     = Ok {| timestamp_str := None; level := u "WARN";
             message := u "shutting down after Warnings";
             raw_line := u "[FATAL] shutting down after Warnings" |}.
Proof.
  to_basic_latin U. repeat split; vm_compute; reflexivity.
Qed.

(** C2.  The claim: a line that begins with the level token WARNING is given
    level WARNING and the rest of the line as message.  The code departs
    from it: on [WARNING Disk low] the alternation takes WARN, listed first,
    so that the level is WARN and the message [ING Disk low]; between
    brackets, the message is [ING] Disk low]. *)
Theorem warning_token_read_as_warn `{U : UnicodeData} :
  classify_line (u "WARNING Disk low")
  = Ok {| timestamp_str := None; level := u "WARN";
          message := u "ING Disk low"; raw_line := u "WARNING Disk low" |}
  /\ classify_line (u "[WARNING] Disk low")
     = Ok {| timestamp_str := None; level := u "WARN";
             message := u "ING] Disk low"; raw_line := u "[WARNING] Disk low" |}.
Proof.
  to_basic_latin U. split; vm_compute; reflexivity.
Qed.

(** C3.  A line that contains ERROR, in any mix of upper and lower case, and
    whose level after the structured match is none of ERROR, CRITICAL and
    FATAL, is classified ERROR; the other fields are those of the
    structured match.  A level INFO is such a level. *)
Theorem error_keyword_promotes `{U : UnicodeData} line ts lvl msg :
  structured_match line = Ok (ts, lvl, msg) ->
  contains_ci (u "ERROR") line = true ->
  lvl <> u "ERROR" -> lvl <> u "CRITICAL" -> lvl <> u "FATAL" ->
  classify_line line
  = Ok {| timestamp_str := ts; level := u "ERROR"; message := msg; raw_line := line |}.
Proof.
  intros Hm Hci H1 H2 H3. unfold classify_line. rewrite Hm.
  cbn [mbind result_bind]. unfold keyword_override.
  rewrite (contains_ci_upper _ _ keyword_ERROR_upper Hci).
  unfold str_eqb. rewrite !bool_decide_eq_false_2 by assumption. reflexivity.
Qed.

Lemma error_keyword_promotes_witness :
  classify_line (U := BasicLatin) (u "INFO recovered from an Error in cache")
  = Ok {| timestamp_str := None; level := u "ERROR";
          message := u "recovered from an Error in cache";
          raw_line := u "INFO recovered from an Error in cache" |}.
Proof.
  apply (error_keyword_promotes (U := BasicLatin)
           (u "INFO recovered from an Error in cache") None (u "INFO")
           (u "recovered from an Error in cache")).
  - vm_compute. reflexivity.
  - vm_compute. reflexivity.
  - discriminate.
  - discriminate.
  - discriminate.
Defined.

(** C4.  The collection of elevated lines is the raw lines of the first
    min(N, total) events whose level is ERROR, WARN, WARNING, CRITICAL or
    FATAL, in input order; with 250 such events and N = 200 it has exactly
    200 entries, the first 200. *)
Theorem elevated_lines_capped `{U : UnicodeData} `{P : DatetimeParser} log_content (N : Z) :
  exists pd, parse_log_data log_content N = Ok pd /\
    let elevated := elevated_lines (List.map entry (df_logs pd)) in
    let total := Z.of_nat (length elevated) in
    error_warning_raw_lines pd = take (Z.to_nat (Z.min N total)) elevated
    /\ (N = 200%Z -> total = 250%Z ->
        length (error_warning_raw_lines pd) = 200%nat
        /\ error_warning_raw_lines pd = take 200 elevated).
Proof.
  rewrite parse_log_data_eq. eexists. split; [reflexivity|].
  cbn [df_logs error_warning_raw_lines]. rewrite map_entry_make_frame.
  cbv zeta. split.
  - now rewrite take_min_length.
  - intros -> Htotal. split; [|reflexivity].
    rewrite length_take. change (Z.to_nat 200) with 200%nat. lia.
Qed.

Lemma elevated_lines_capped_witness :
  exists pd,
    parse_log_data (U := BasicLatin) (P := strptime_parser (U := BasicLatin))
      many_errors 200 = Ok pd
    /\ length (error_warning_raw_lines pd) = 200%nat.
Proof.
  destruct (elevated_lines_capped (U := BasicLatin)
              (P := strptime_parser (U := BasicLatin)) many_errors 200)
    as (pd & Hpd & _ & Hcap).
  exists pd. split; [exact Hpd|].
  apply Hcap; [reflexivity|].
  rewrite parse_log_data_eq in Hpd. injection Hpd as <-.
  cbn [df_logs]. rewrite map_entry_make_frame. vm_compute. reflexivity.
Defined.

(** C5.  The aggregator produces one event per input line that is not blank
    and none for a blank line, in input order: the raw lines of the events
    are the trimmed non-blank lines, none of them empty, and there are as
    many events as non-blank input lines. *)
Theorem one_event_per_nonblank_line `{U : UnicodeData} `{P : DatetimeParser} log_content N :
  exists pd, parse_log_data log_content N = Ok pd
    /\ List.map (fun row => raw_line (entry row)) (df_logs pd)
       = List.filter nonempty (List.map strip (splitlines log_content))
    /\ Forall (fun row => raw_line (entry row) <> []) (df_logs pd)
    /\ length (df_logs pd)
       = length (List.filter (fun l => nonempty (strip l)) (splitlines log_content)).
Proof.
  rewrite parse_log_data_eq. eexists. split; [reflexivity|].
  cbn [df_logs].
  assert (Hraw : List.map (fun row => raw_line (entry row))
                   (make_frame (List.map classify (nonblank_lines log_content)))
                 = nonblank_lines log_content).
  { rewrite <- (List.map_map entry raw_line), map_entry_make_frame, List.map_map.
    rewrite (List.map_ext _ id classify_raw_line). apply List.map_id. }
  split; [exact Hraw|]. split.
  - apply Forall_forall. intros row Hrow.
    pose proof (nonblank_lines_nonempty log_content) as Hne.
    rewrite <- Hraw in Hne. rewrite Forall_forall in Hne. apply Hne.
    apply list_elem_of_In, in_map_iff. exists row. split; [reflexivity|].
    now apply list_elem_of_In.
  - rewrite <- length_filter_map. fold (nonblank_lines log_content).
    rewrite <- Hraw at 2. now rewrite length_map.
Qed.

(** C6.  The frame holds one row per classified event, in order, and the
    timestamp of each row is none when the raw timestamp of its event is
    none; otherwise it is what the format with milliseconds gives and, only
    when that fails, what the format with seconds gives, and none when both
    fail.  No error is raised. *)
Theorem timestamps_coerced `{U : UnicodeData} `{P : DatetimeParser} log_content N :
  exists pd, parse_log_data log_content N = Ok pd
    /\ df_logs pd
       = List.map (fun e => {| entry := e;
                               timestamp := coerce_timestamp (timestamp_str e) |})
           (List.map classify (nonblank_lines log_content))
    /\ Forall (fun row => timestamp row = coerce_timestamp (timestamp_str (entry row)))
         (df_logs pd)
    /\ Forall (fun row =>
                 match timestamp_str (entry row) with
                 | None => timestamp row = None
                 | Some s =>
                     match to_datetime_scalar fmt_millis s with
                     | Some t => timestamp row = Some t
                     | None => timestamp row = to_datetime_scalar fmt_seconds s
                     end
                 end)
         (df_logs pd).
Proof.
  rewrite parse_log_data_eq. eexists. split; [reflexivity|].
  cbn [df_logs]. unfold make_frame. rewrite timestamp_column_eq.
  induction (List.map classify (nonblank_lines log_content)) as [|e es IH].
  - repeat split; constructor.
  - destruct IH as (IHeq & IHall & IHcases). simpl. split; [now rewrite IHeq|].
    split; constructor; try assumption; [reflexivity|].
    cbn [entry timestamp]. unfold coerce_timestamp.
    destruct (timestamp_str e) as [s|]; [|reflexivity].
    now destruct (to_datetime_scalar fmt_millis s).
Qed.

(** C7.  The line [2024-06-25 10:00:22,333 ERROR Database connection failed]
    alone yields one event with that raw timestamp, level ERROR, message
    [Database connection failed], and the time 25 June 2024, 10:00:22.333. *)
Theorem database_error_line_parsed `{U : UnicodeData} :
  parse_log_data (P := strptime_parser) db_error_line 200
  = Ok {| df_logs :=
            [ {| entry := {| timestamp_str := Some (u "2024-06-25 10:00:22,333");
                             level := u "ERROR";
                             message := u "Database connection failed";
                             raw_line := db_error_line |};
                 timestamp := Some {| year := 2024; month := 6; day := 25;
                                      hour := 10; minute := 0; second := 22;
                                      microsecond := 333000; nanosecond := 0 |} |} ];
          error_warning_raw_lines := [db_error_line] |}.
Proof.
  rewrite parse_log_data_eq.
  replace (nonblank_lines db_error_line) with [db_error_line]
    by (vm_compute; reflexivity).
  cbn [List.map]. unfold classify. to_basic_latin U.
  replace (classify_line (U := BasicLatin) db_error_line)
    with (Ok {| timestamp_str := Some (u "2024-06-25 10:00:22,333");
                level := u "ERROR";
                message := u "Database connection failed";
                raw_line := db_error_line |})
    by (vm_compute; reflexivity).
  unfold make_frame. rewrite timestamp_column_eq.
  cbn [List.map zip_with timestamp_str coerce_timestamp to_datetime_scalar strptime_parser].
  rewrite (strptime_transfer _ BasicLatin)
    by (apply ascii_only_check; reflexivity).
  vm_compute. reflexivity.
Qed.

(** C8.  When the collection of elevated lines is empty, the summarizer is
    not called and the result is the success "no significant findings": the
    success flag is set and there is no error message.  Empty file content
    is such a case, with no event at all. *)
Theorem no_findings_is_success `{U : UnicodeData} `{P : DatetimeParser} `{C : Collaborators}
    file output_format :
  (forall log_content pd,
     utf8_decode (file_bytes file) = Ok log_content ->
     parse_log_data log_content 200 = Ok pd ->
     error_warning_raw_lines pd = [] ->
     process_logs_and_summarize (Some file) output_format
     = ({| summary_text :=
             u "No significant errors or warnings found in the provided log file.";
           download_link := None; success := true; error_message := None;
           frame := Some (df_logs pd) |}, []))
  /\ (file_bytes file = [] ->
      process_logs_and_summarize (Some file) output_format
      = ({| summary_text :=
              u "No significant errors or warnings found in the provided log file.";
            download_link := None; success := true; error_message := None;
            frame := Some [] |}, [])).
Proof.
  split.
  - intros log_content pd Hdec Hparse Hraw.
    unfold process_logs_and_summarize. rewrite Hdec, Hparse, Hraw. reflexivity.
  - intros Hbytes. unfold process_logs_and_summarize. rewrite Hbytes.
    cbn [utf8_decode]. rewrite parse_log_data_eq. reflexivity.
Qed.

Lemma no_findings_is_success_witness :
  let file := {| file_name := u "app.log";
                 file_bytes := bytes_of "2024-06-25 10:00:01,123 INFO Application started" |} in
  let r := process_logs_and_summarize (U := BasicLatin)
             (P := strptime_parser (U := BasicLatin)) (C := offline)
             (Some file) (u "markdown") in
  success (fst r) = true /\ error_message (fst r) = None /\ snd r = [].
Proof.
  intros file r.
  destruct (no_findings_is_success (U := BasicLatin)
              (P := strptime_parser (U := BasicLatin)) (C := offline)
              file (u "markdown")) as [Hgen _].
  pose proof (Hgen (u "2024-06-25 10:00:01,123 INFO Application started") _
                ltac:(vm_compute; reflexivity)
                (parse_log_data_eq _ _)
                ltac:(vm_compute; reflexivity)) as Hr.
  subst r.
  rewrite Hr. repeat split.
Defined.

(** C9.  On every string the classifier returns an entry, without raising,
    and the level of the entry is one of the seven severities, hence not
    empty.  At worst, when the pattern finds neither a timestamp nor a level
    on a trimmed line and no keyword occurs in it, the entry has no raw
    timestamp, level INFO and the whole line as message. *)
Theorem classifier_never_fails `{U : UnicodeData} line :
  exists e, classify_line line = Ok e
    /\ In (level e) severities /\ level e <> [] /\ raw_line e = line
    /\ (forall m, re_match log_pattern line = Some m ->
          group m "timestamp_str" = None -> group m "level" = None ->
          strip line = line -> ~ In 0x0A line ->
          contains (u "ERROR") (upper line) = false ->
          contains (u "WARN") (upper line) = false ->
          e = {| timestamp_str := None; level := u "INFO";
                 message := line; raw_line := line |}).
Proof.
  destruct (classify_line_ok line) as (e & He & Hl & Hr).
  exists e. split; [exact He|]. split; [now apply structural_levels_severities|].
  split; [|split; [exact Hr|]].
  - intros Hnil. rewrite Hnil in Hl. simpl in Hl. intuition discriminate.
  - intros m Hm Hts Hlv Hstrip Hnl Herr Hwarn.
    rewrite re_match_log_pattern in Hm. injection Hm as <-.
    rewrite (classify_line_fallback line Hts Hlv Hstrip Hnl Herr Hwarn) in He.
    now injection He.
Qed.

Lemma classifier_never_fails_witness :
  classify_line (U := BasicLatin) (u "Server health check passed.")
  = Ok {| timestamp_str := None; level := u "INFO";
          message := u "Server health check passed.";
          raw_line := u "Server health check passed." |}.
Proof.
  destruct (classifier_never_fails (U := BasicLatin) (u "Server health check passed."))
    as (e & He & _ & _ & _ & Hworst).
  rewrite He. f_equal.
  destruct (re_match (U := BasicLatin) log_pattern (u "Server health check passed."))
    as [m|] eqn:Em; [|vm_compute in Em; discriminate].
  apply (Hworst m eq_refl).
  - vm_compute in Em. injection Em as <-. vm_compute. reflexivity.
  - vm_compute in Em. injection Em as <-. vm_compute. reflexivity.
  - vm_compute. reflexivity.
  - vm_compute. intuition discriminate.
  - vm_compute. reflexivity.
  - vm_compute. reflexivity.
Defined.

(** C10.  The classifier never gives the level WARNING.  The structured
    match gives one of the six other names, the keyword override keeps it or
    puts ERROR or WARN in its place, and a line that begins with WARNING is
    read as the level WARN by the pattern, whose alternation lists WARN
    first. *)
Theorem warning_level_unreachable `{U : UnicodeData} line :
  (exists ts lvl msg e,
     structured_match line = Ok (ts, lvl, msg)
     /\ In lvl structural_levels
     /\ classify_line line = Ok e
     /\ (level e = u "ERROR" \/ level e = u "WARN" \/ level e = lvl)
     /\ level e <> u "WARNING")
  /\ (exists ts msg, structured_match (u "WARNING" ++ line) = Ok (ts, u "WARN", msg)).
Proof.
  split; [|apply structured_match_leading_warning].
  destruct (structured_match_ok line) as (ts & lvl & msg & Hm & Hl).
  exists ts, lvl, msg. eexists. split; [exact Hm|]. split; [exact Hl|].
  unfold classify_line. rewrite Hm. cbn [mbind result_bind].
  split; [reflexivity|]. cbn [level]. split.
  - apply keyword_override_cases.
  - pose proof (keyword_override_structural line lvl Hl) as Hk.
    intros Heq. rewrite Heq in Hk. simpl in Hk. intuition discriminate.
Qed.

(** ** Further properties of the classifier *)

Section Trimming.

Lemma lstrip_head s :
  lstrip s = [] \/ exists c t, lstrip s = c :: t /\ isspace c = false.
Proof.
  induction s as [|c t IH]; simpl; [now left|].
  destruct (isspace c) eqn:Ec; [exact IH | right; eauto].
Qed.

Lemma lstrip_lstrip s : lstrip (lstrip s) = lstrip s.
Proof.
  destruct (lstrip_head s) as [-> | (c & t & -> & Hc)]; [reflexivity|].
  simpl. now rewrite Hc.
Qed.

Lemma lstrip_snoc a c :
  isspace c = false -> lstrip (a ++ [c]) = lstrip a ++ [c].
Proof.
  intros Hc. induction a as [|x a IH]; simpl.
  - now rewrite Hc.
  - destruct (isspace x); [exact IH | reflexivity].
Qed.

Lemma rstrip_rstrip s : rstrip (rstrip s) = rstrip s.
Proof. unfold rstrip. now rewrite rev_involutive, lstrip_lstrip. Qed.

Lemma rstrip_cons c t : isspace c = false -> rstrip (c :: t) = c :: rstrip t.
Proof.
  intros Hc. unfold rstrip. simpl. rewrite lstrip_snoc by assumption.
  rewrite rev_app_distr. reflexivity.
Qed.

(** Trimming twice is trimming once. *)
Lemma strip_strip s : strip (strip s) = strip s.
Proof.
  unfold strip.
  destruct (lstrip_head s) as [-> | (c & t & -> & Hc)]; [reflexivity|].
  rewrite rstrip_cons by assumption. simpl. rewrite Hc.
  rewrite rstrip_cons by assumption. now rewrite rstrip_rstrip.
Qed.

Lemma lstrip_suffix s : exists a, s = a ++ lstrip s.
Proof.
  induction s as [|c t [a Ha]]; [now exists []|]. simpl.
  destruct (isspace c); [|now exists []].
  exists (c :: a). simpl. now f_equal.
Qed.

Lemma rstrip_prefix s : exists b, s = rstrip s ++ b.
Proof.
  unfold rstrip. destruct (lstrip_suffix (rev s)) as [a Ha].
  exists (rev a). rewrite <- rev_app_distr, <- Ha. now rewrite rev_involutive.
Qed.

(** A trimmed string is a contiguous part of the string. *)
Lemma strip_infix s : exists a b, s = a ++ strip s ++ b.
Proof.
  unfold strip. destruct (lstrip_suffix s) as [a Ha].
  destruct (rstrip_prefix (lstrip s)) as [b Hb].
  exists a, b. now rewrite <- Hb.
Qed.

Lemma Forall_lstrip (Q : char -> Prop) s : Forall Q s -> Forall Q (lstrip s).
Proof.
  induction 1 as [|c t Hc Ht IH]; simpl; [constructor|].
  destruct (isspace c); [assumption | now constructor].
Qed.

Lemma Forall_strip (Q : char -> Prop) s : Forall Q s -> Forall Q (strip s).
Proof.
  intros Hs. unfold strip, rstrip.
  apply Forall_rev, Forall_lstrip, Forall_rev, Forall_lstrip, Hs.
Qed.

End Trimming.

(** ** Further properties of [splitlines] *)

Section Lines.

Lemma splitlines_from_no_break n : forall s cur,
  (length s <= n)%nat ->
  Forall (fun c => islinebreak c = false) cur ->
  Forall (Forall (fun c => islinebreak c = false)) (splitlines_from cur s).
Proof.
  induction n as [|n IH]; intros s cur Hlen Hcur.
  - destruct s; [|simpl in Hlen; lia]. simpl.
    destruct cur; repeat constructor. now apply Forall_rev.
  - destruct s as [|c t]; simpl.
    + destruct cur; repeat constructor. now apply Forall_rev.
    + simpl in Hlen. destruct (islinebreak c) eqn:Ec.
      * constructor; [now apply Forall_rev|].
        destruct t as [|c' t']; [apply IH; [simpl; lia | constructor]|].
        simpl in Hlen.
        destruct ((c =? 13) && (c' =? 10)); apply IH; simpl; try lia; constructor.
      * apply IH; [lia | now constructor].
Qed.

Lemma splitlines_no_break s :
  Forall (Forall (fun c => islinebreak c = false)) (splitlines s).
Proof. apply (splitlines_from_no_break (length s)); [lia | constructor]. Qed.

(** Reading a stretch without line boundary. *)
Lemma splitlines_from_line l : forall cur rest,
  Forall (fun c => islinebreak c = false) l ->
  splitlines_from cur (l ++ rest) = splitlines_from (rev l ++ cur) rest.
Proof.
  induction l as [|c l IH]; intros cur rest Hl; [reflexivity|].
  inversion Hl as [|? ? Hc Hl']; subst. simpl. rewrite Hc.
  rewrite IH by assumption. now rewrite <- app_assoc.
Qed.

Lemma splitlines_from_lf cur rest :
  splitlines_from cur (0x0A :: rest) = rev cur :: splitlines_from [] rest.
Proof. simpl. now destruct rest. Qed.

(** Joining lines with line feeds and splitting again gives the lines back,
    when none of them is empty or contains a line boundary. *)
Lemma splitlines_join ls :
  Forall (fun l => l <> [] /\ Forall (fun c => islinebreak c = false) l) ls ->
  splitlines (join [0x0A] ls) = ls.
Proof.
  unfold splitlines. induction 1 as [|p ps [Hne Hp] Hps IH]; [reflexivity|].
  destruct ps as [|q ps].
  - simpl. rewrite <- (app_nil_r p) at 1.
    rewrite splitlines_from_line by assumption. rewrite app_nil_r. simpl.
    destruct (rev p) eqn:E.
    + apply (f_equal (@rev _)) in E. rewrite rev_involutive in E. now subst.
    + now rewrite <- E, rev_involutive.
  - change (join [10] (p :: q :: ps)) with (p ++ 10 :: join [10] (q :: ps)).
    rewrite splitlines_from_line by assumption. rewrite app_nil_r.
    rewrite splitlines_from_lf, rev_involutive. now rewrite IH.
Qed.

(** A line feed between two texts: the non-blank lines of the whole are
    those of the first text followed by those of the second. *)
Lemma nonblank_lines_from_app b n : forall a cur,
  (length a <= n)%nat ->
  List.filter nonempty (List.map strip (splitlines_from cur (a ++ 0x0A :: b)))
  = List.filter nonempty (List.map strip (splitlines_from cur a)) ++ nonblank_lines b.
Proof.
  assert (Hbase : forall cur,
    List.filter nonempty (List.map strip (splitlines_from cur (0x0A :: b)))
    = List.filter nonempty (List.map strip (splitlines_from cur [])) ++ nonblank_lines b).
  { intros cur. rewrite splitlines_from_lf. destruct cur as [|x cur]; [reflexivity|].
    cbn [splitlines_from List.map List.filter].
    destruct (nonempty (strip (rev (x :: cur)))); reflexivity. }
  induction n as [|n IH]; intros a cur Hlen.
  - destruct a; [apply Hbase | simpl in Hlen; lia].
  - destruct a as [|c t]; [apply Hbase|]. simpl in Hlen.
    cbn [app splitlines_from]. destruct (islinebreak c) eqn:Ec.
    + cbn [List.map List.filter]. destruct t as [|c' t'].
      * cbn [app]. destruct ((c =? 13) && (10 =? 10)).
        -- cbn [splitlines_from List.map List.filter].
           destruct (nonempty (strip (rev cur))); reflexivity.
        -- rewrite (Hbase []). cbn [splitlines_from List.map List.filter app].
           destruct (nonempty (strip (rev cur))); reflexivity.
      * cbn [app]. simpl in Hlen.
        destruct ((c =? 13) && (c' =? 10)).
        -- rewrite (IH t' []) by lia.
           destruct (nonempty (strip (rev cur))); reflexivity.
        -- change (c' :: t' ++ 10 :: b) with ((c' :: t') ++ 10 :: b).
           rewrite (IH (c' :: t') []) by (simpl; lia).
           destruct (nonempty (strip (rev cur))); reflexivity.
    + apply IH. lia.
Qed.

Lemma nonblank_lines_app a b :
  nonblank_lines (a ++ 0x0A :: b) = nonblank_lines a ++ nonblank_lines b.
Proof. apply (nonblank_lines_from_app b (length a)). lia. Qed.

Lemma nonblank_lines_trimmed log_content :
  Forall (fun l => l <> [] /\ strip l = l /\ Forall (fun c => islinebreak c = false) l)
    (nonblank_lines log_content).
Proof.
  unfold nonblank_lines.
  pose proof (splitlines_no_break log_content) as Hnb.
  induction Hnb as [|l ls Hl _ IH]; simpl; [constructor|].
  destruct (nonempty (strip l)) eqn:E; [|exact IH].
  constructor; [|exact IH]. split; [now destruct (strip l)|].
  split; [apply strip_strip | now apply Forall_strip].
Qed.

End Lines.

(** ** Further properties of the line classifier *)

Section ClassifierMore.
Context `{U : UnicodeData}.

Lemma keyword_WARN_upper :
  Forall (fun c => c < 128 /\ ascii_toupper c = c) (u "WARN").
Proof. repeat constructor. Qed.

Lemma scan_groups_timestamp line :
  ms_groups (scan line) !! "timestamp_str"%string
  = ms_groups (scan_timestamp (MState 0 line ∅)) !! "timestamp_str"%string.
Proof.
  unfold scan, scan_message, ms_close. cbn [ms_groups].
  rewrite lookup_insert_ne by discriminate. rewrite !skip_class_groups.
  set (st1 := skip_class CSpace (scan_timestamp _)).
  assert (Hwf1 : wf line st1).
  { apply wf_skip_class, wf_scan_timestamp. reflexivity. }
  destruct (scan_level_cases line st1 Hwf1) as [-> | (_ & ? & ? & _ & _ & _ & E)].
  - reflexivity.
  - rewrite E, lookup_insert_ne by discriminate. reflexivity.
Qed.

(** The timestamp group, read off the line. *)
Lemma group_timestamp line :
  group (finish line (scan line)) "timestamp_str"
  = if match_classes ts_seconds_classes line
    then Some (take (if match_classes ts_millis_classes (drop 19 line) then 23 else 19)
                 line)
    else None.
Proof.
  unfold group, finish. cbn [m_spans m_string].
  rewrite scan_groups_timestamp. unfold scan_timestamp. cbn [ms_rest].
  destruct (match_classes ts_seconds_classes line); [|reflexivity].
  unfold ms_close, ms_skip. cbn [ms_groups ms_pos ms_rest].
  destruct (match_classes ts_millis_classes (drop 19 line));
    cbn [ms_groups ms_pos]; rewrite lookup_insert_eq; unfold substr;
    rewrite drop_0; reflexivity.
Qed.

Lemma structured_match_timestamp line ts lvl msg :
  structured_match line = Ok (ts, lvl, msg) ->
  ts = group (finish line (scan line)) "timestamp_str".
Proof.
  unfold structured_match. rewrite re_match_log_pattern.
  destruct (strip_method _); cbn [mbind result_bind]; [|discriminate].
  now intros [= <- _ _].
Qed.

Lemma substr_infix s a b : exists x y, s = x ++ substr s a b ++ y.
Proof.
  unfold substr. exists (take a s), (drop (b - a) (drop a s)).
  now rewrite take_drop, take_drop.
Qed.

Lemma slice_from_infix s i : exists x y, s = x ++ slice_from s i ++ y.
Proof.
  unfold slice_from. destruct (i <? 0)%Z; eexists _, [];
    rewrite app_nil_r; symmetry; apply take_drop.
Qed.

Lemma strip_of_infix s x : (exists a b, s = a ++ x ++ b) ->
  exists a b, s = a ++ strip x ++ b.
Proof.
  intros (a & b & ->). destruct (strip_infix x) as (a' & b' & Hx).
  exists (a ++ a'), (b' ++ b). rewrite Hx at 1. now rewrite <- !app_assoc.
Qed.

Lemma structured_match_message line ts lvl msg :
  structured_match line = Ok (ts, lvl, msg) ->
  strip msg = msg /\ exists a b, line = a ++ msg ++ b.
Proof.
  unfold structured_match. rewrite re_match_log_pattern.
  destruct (group (finish line (scan line)) "message") as [s|] eqn:Es;
    cbn [strip_method mbind result_bind]; [|discriminate].
  assert (Hs : exists a b, line = a ++ s ++ b).
  { revert Es. unfold group, finish. cbn [m_spans m_string].
    destruct (_ !! _) as [[a b]|]; [|discriminate].
    intros [= <-]. apply substr_infix. }
  destruct (negb (nonempty (strip s)) && _ && _).
  - destruct (truthy _); intros [= _ _ <-];
      (split; [apply strip_strip | apply strip_of_infix, slice_from_infix]).
  - intros [= _ _ <-]. split; [apply strip_strip | now apply strip_of_infix].
Qed.

End ClassifierMore.

(** ** Further properties: classifier and aggregator *)

(** X1.  A line that contains the keyword ERROR or the keyword WARN, in any
    mix of upper and lower case, is classified with an elevated level, so
    that it is a candidate for the summarizer.  When WARN occurs the level
    is ERROR or WARN, whatever the pattern found. *)
Theorem keyword_lines_are_elevated `{U : UnicodeData} line :
  contains_ci (u "ERROR") line = true \/ contains_ci (u "WARN") line = true ->
  exists e, classify_line line = Ok e
    /\ is_elevated (level e) = true
    /\ (contains_ci (u "WARN") line = true ->
        level e = u "ERROR" \/ level e = u "WARN").
Proof.
  intros Hkw.
  destruct (structured_match_ok line) as (ts & lvl & msg & Hm & Hl).
  unfold classify_line. rewrite Hm. cbn [mbind result_bind].
  eexists. split; [reflexivity|]. cbn [level]. unfold keyword_override.
  assert (Hw : contains_ci (u "WARN") line = true ->
               contains (u "WARN") (upper line) = true)
    by apply (contains_ci_upper _ _ keyword_WARN_upper).
  assert (He : contains_ci (u "ERROR") line = true ->
               contains (u "ERROR") (upper line) = true)
    by apply (contains_ci_upper _ _ keyword_ERROR_upper).
  destruct (contains (u "ERROR") (upper line)) eqn:E1;
  destruct (contains (u "WARN") (upper line)) eqn:E2;
  destruct (contains (u "WARNING") (upper line)) eqn:E3;
  try (destruct Hkw as [Hk | Hk]; [apply He in Hk | apply Hw in Hk]; discriminate);
  simpl in Hl;
  destruct Hl as [<- | [<- | [<- | [<- | [<- | [<- | []]]]]]];
  (split; [vm_compute; reflexivity |]);
  intros Hc; try (apply Hw in Hc; discriminate);
  vm_compute; tauto.
Qed.

Lemma keyword_lines_are_elevated_witness :
  exists e, classify_line (U := BasicLatin) (u "[FATAL] disk Warning ignored") = Ok e
    /\ level e = u "WARN".
Proof.
  destruct (keyword_lines_are_elevated (U := BasicLatin)
              (u "[FATAL] disk Warning ignored"))
    as (e & He & _ & Hw).
  - right. vm_compute. reflexivity.
  - exists e. split; [exact He|].
    destruct Hw as [Hw | Hw]; [vm_compute; reflexivity | | exact Hw].
    exfalso. vm_compute in He. injection He as <-. discriminate.
Defined.

(** The classes of a shape, as the pattern writes them. *)
Lemma match_classes_shape `{U : UnicodeData} shape s :
  match_classes
    (List.map (fun a => if Ascii.eqb a "d" then CDigit else CLit (N_of_ascii a)) shape) s
  = has_shape shape (take (length shape) s).
Proof.
  revert s. induction shape as [|a shape IH]; intros s.
  - now rewrite take_0.
  - destruct s as [|c s]; [reflexivity|]. cbn [List.map match_classes length take has_shape].
    rewrite IH. f_equal. destruct (Ascii.eqb a "d"); [reflexivity|].
    cbn [in_class]. apply N.eqb_sym.
Qed.

Lemma has_shape_length `{U : UnicodeData} shape s :
  has_shape shape s = true -> length s = length shape.
Proof.
  revert s. induction shape as [|a shape IH]; intros [|c s] H; try discriminate;
    [reflexivity|].
  simpl in H. apply andb_true_iff in H as [_ H]. simpl. f_equal. now apply IH.
Qed.

Lemma has_shape_app `{U : UnicodeData} shape1 shape2 s1 s2 :
  has_shape shape1 s1 = true -> has_shape shape2 s2 = true ->
  has_shape (shape1 ++ shape2) (s1 ++ s2) = true.
Proof.
  revert s1. induction shape1 as [|a shape1 IH]; intros [|c s1] H1 H2;
    try discriminate; [exact H2|].
  simpl in *. apply andb_true_iff in H1 as [-> H1]. simpl. now apply IH.
Qed.

(** X2.  The raw timestamp of an entry is none exactly when the line does
    not begin with the shape [dddd-dd-dd dd:dd:dd].  Otherwise it is the
    beginning of the line: its first 23 characters when a comma and three
    digits follow the seconds, and then it has the shape
    [dddd-dd-dd dd:dd:dd,ddd]; its first 19 characters when they do not. *)
Theorem timestamp_is_line_prefix `{U : UnicodeData} line :
  exists e, classify_line line = Ok e /\
    match timestamp_str e with
    | None => has_shape seconds_shape (take 19 line) = false
    | Some ts =>
        has_shape seconds_shape (take 19 line) = true
        /\ ts `prefix_of` line
        /\ if has_shape millis_shape (take 4 (drop 19 line))
           then ts = take 23 line /\ length ts = 23%nat
                /\ has_shape (seconds_shape ++ millis_shape) ts = true
           else ts = take 19 line /\ length ts = 19%nat
                /\ has_shape seconds_shape ts = true
    end.
Proof.
  destruct (structured_match_ok line) as (ts & lvl & msg & Hm & _).
  unfold classify_line. rewrite Hm. cbn [mbind result_bind].
  eexists. split; [reflexivity|]. cbn [timestamp_str].
  rewrite (structured_match_timestamp _ _ _ _ Hm), group_timestamp.
  change ts_seconds_classes
    with (List.map (fun a => if Ascii.eqb a "d" then CDigit else CLit (N_of_ascii a))
            seconds_shape).
  change ts_millis_classes
    with (List.map (fun a => if Ascii.eqb a "d" then CDigit else CLit (N_of_ascii a))
            millis_shape).
  rewrite !match_classes_shape.
  change (length seconds_shape) with 19%nat. change (length millis_shape) with 4%nat.
  destruct (has_shape seconds_shape (take 19 line)) eqn:E19; [|reflexivity].
  split; [reflexivity|].
  pose proof (has_shape_length _ _ E19) as H19. change (length seconds_shape) with 19%nat in H19.
  destruct (has_shape millis_shape (take 4 (drop 19 line))) eqn:E4.
  - pose proof (has_shape_length _ _ E4) as H4. change (length millis_shape) with 4%nat in H4.
    split; [apply prefix_take|]. split; [reflexivity|].
    assert (Hsplit : take 23 line = take 19 line ++ take 4 (drop 19 line)).
    { rewrite <- (take_drop 19 line) at 1. rewrite take_app, H19.
      rewrite (take_ge (take 19 line)) by lia. reflexivity. }
    split; [rewrite Hsplit, length_app; lia|].
    rewrite Hsplit. now apply has_shape_app.
  - split; [apply prefix_take|]. repeat split; assumption.
Qed.

(** X3.  The message of an entry has no white space at either end and is a
    contiguous part of the line. *)
Theorem message_is_trimmed_part `{U : UnicodeData} line :
  exists e, classify_line line = Ok e
    /\ strip (message e) = message e
    /\ exists a b, line = a ++ message e ++ b.
Proof.
  destruct (structured_match_ok line) as (ts & lvl & msg & Hm & _).
  unfold classify_line. rewrite Hm. cbn [mbind result_bind].
  eexists. split; [reflexivity|]. cbn [message].
  exact (structured_match_message _ _ _ _ Hm).
Qed.

Section AggregatorMore.
Context `{U : UnicodeData} `{P : DatetimeParser}.

(** The frame row by row: each row carries its own coercion, whatever the
    other rows are. *)
Lemma make_frame_eq entries :
  make_frame entries
  = List.map (fun e => {| entry := e;
                          timestamp := coerce_timestamp (timestamp_str e) |}) entries.
Proof.
  unfold make_frame. rewrite timestamp_column_eq.
  induction entries as [|e es IH]; simpl; [reflexivity | now rewrite IH].
Qed.

Lemma elevated_lines_classify lines :
  elevated_lines (List.map classify lines)
  = List.filter (fun l => is_elevated (level (classify l))) lines.
Proof.
  unfold elevated_lines. induction lines as [|l ls IH]; simpl; [reflexivity|].
  destruct (is_elevated (level (classify l))); simpl; rewrite IH; [|reflexivity].
  now rewrite classify_raw_line.
Qed.

Lemma elevated_lines_app a b :
  elevated_lines (a ++ b) = elevated_lines a ++ elevated_lines b.
Proof. unfold elevated_lines. now rewrite List.filter_app, List.map_app. Qed.

Lemma take_take_app {A} n (a b : list A) :
  take n (take n a ++ take n b) = take n (a ++ b).
Proof.
  rewrite !take_app, !take_take, length_take.
  replace (n `min` n)%nat with n by lia.
  destruct (Nat.le_gt_cases n (length a)) as [Hle | Hgt].
  - replace (n - n `min` length a)%nat with O by lia.
    replace (n - length a)%nat with O by lia. reflexivity.
  - replace (n - n `min` length a)%nat with (n - length a)%nat by lia.
    f_equal. f_equal. lia.
Qed.

End AggregatorMore.

(** X4.  The raw line of every event is trimmed: it is not empty, has no
    white space at either end and contains no line boundary. *)
Theorem raw_lines_trimmed_single_line `{U : UnicodeData} `{P : DatetimeParser}
    log_content N :
  exists pd, parse_log_data log_content N = Ok pd /\
    Forall (fun row =>
              raw_line (entry row) <> []
              /\ strip (raw_line (entry row)) = raw_line (entry row)
              /\ Forall (fun c => islinebreak c = false) (raw_line (entry row)))
      (df_logs pd).
Proof.
  rewrite parse_log_data_eq. eexists. split; [reflexivity|].
  cbn [df_logs]. rewrite make_frame_eq.
  pose proof (nonblank_lines_trimmed log_content) as Ht.
  induction Ht as [|l ls Hl _ IH]; simpl; constructor; [|exact IH].
  cbn [entry]. now rewrite classify_raw_line.
Qed.

(** X5.  The cap bounds the collection of elevated lines and nothing else:
    the events do not depend on it, the collection has at most N entries,
    and with a larger cap the collection only grows at its end. *)
Theorem cap_only_bounds_elevated `{U : UnicodeData} `{P : DatetimeParser}
    log_content (N N' : Z) :
  (N <= N')%Z ->
  exists pd pd',
    parse_log_data log_content N = Ok pd
    /\ parse_log_data log_content N' = Ok pd'
    /\ df_logs pd = df_logs pd'
    /\ error_warning_raw_lines pd `prefix_of` error_warning_raw_lines pd'
    /\ (length (error_warning_raw_lines pd) <= Z.to_nat N)%nat.
Proof.
  intros Hle. rewrite !parse_log_data_eq. eexists _, _.
  split; [reflexivity|]. split; [reflexivity|]. cbn [df_logs error_warning_raw_lines].
  split; [reflexivity|]. split.
  - set (l := elevated_lines _).
    replace (take (Z.to_nat N) l) with (take (Z.to_nat N) (take (Z.to_nat N') l)).
    + apply prefix_take.
    + rewrite take_take. f_equal. lia.
  - rewrite length_take. lia.
Qed.

Lemma cap_only_bounds_elevated_witness :
  exists pd pd',
    parse_log_data (U := BasicLatin) (P := strptime_parser (U := BasicLatin))
      many_errors 3 = Ok pd
    /\ parse_log_data (U := BasicLatin) (P := strptime_parser (U := BasicLatin))
         many_errors 200 = Ok pd'
    /\ df_logs pd = df_logs pd'
    /\ (length (error_warning_raw_lines pd) <= 3)%nat.
Proof.
  destruct (cap_only_bounds_elevated (U := BasicLatin)
              (P := strptime_parser (U := BasicLatin)) many_errors 3 200)
    as (pd & pd' & H1 & H2 & H3 & _ & H5).
  - lia.
  - exists pd, pd'. repeat split; assumption.
Defined.

(** X6.  Analysing two texts joined by a line feed gives the events of the
    first followed by the events of the second, and as elevated lines the
    first N of the two collections put end to end. *)
Theorem parse_log_data_concat `{U : UnicodeData} `{P : DatetimeParser}
    text1 text2 N :
  exists pd1 pd2 pd,
    parse_log_data text1 N = Ok pd1
    /\ parse_log_data text2 N = Ok pd2
    /\ parse_log_data (text1 ++ 0x0A :: text2) N = Ok pd
    /\ df_logs pd = df_logs pd1 ++ df_logs pd2
    /\ error_warning_raw_lines pd
       = take (Z.to_nat N) (error_warning_raw_lines pd1 ++ error_warning_raw_lines pd2).
Proof.
  rewrite !parse_log_data_eq. eexists _, _, _.
  split; [reflexivity|]. split; [reflexivity|]. split; [reflexivity|].
  cbn [df_logs error_warning_raw_lines].
  rewrite nonblank_lines_app, map_app. split.
  - rewrite !make_frame_eq. apply map_app.
  - now rewrite elevated_lines_app, take_take_app.
Qed.

(** ** Further properties of [process_logs_and_summarize] *)

Lemma Forall_list_filter {A} (Q : A -> Prop) f l :
  Forall Q l -> Forall Q (List.filter f l).
Proof.
  induction 1 as [|x l Hx _ IH]; simpl; [constructor|].
  destruct (f x); [now constructor | assumption].
Qed.

(** The decoder raises nothing but [UnicodeDecodeError]. *)
Lemma utf8_decode_raise n : forall bs e,
  (length bs <= n)%nat -> utf8_decode bs = Raise e -> e = UnicodeDecodeError.
Proof.
  induction n as [|n IH]; intros bs e Hlen; destruct bs as [|b0 t];
    try discriminate; [simpl in Hlen; lia|].
  simpl in Hlen. cbn [utf8_decode].
  assert (Hrec : forall t' (f : str -> str),
            (length t' <= n)%nat ->
            (s ← utf8_decode t'; Ok (f s)) = Raise e -> e = UnicodeDecodeError).
  { intros t' f Hl. destruct (utf8_decode t') eqn:E; cbn [mbind result_bind];
      [discriminate|]. intros [= <-]. now apply (IH t'). }
  destruct (_ <? 128); [apply (Hrec t (cons _)); lia|].
  destruct (_ && _).
  { destruct t as [|b1 t1]; [now intros [= <-]|]. simpl in Hlen.
    destruct (is_continuation _); [|now intros [= <-]].
    apply (Hrec t1 (cons _)). lia. }
  destruct (_ && _).
  { destruct t as [|b1 [|b2 t2]]; try (now intros [= <-]). simpl in Hlen.
    destruct (_ && _); [|now intros [= <-]].
    apply (Hrec t2 (cons _)). lia. }
  destruct (_ && _); [|now intros [= <-]].
  destruct t as [|b1 [|b2 [|b3 t3]]]; try (now intros [= <-]). simpl in Hlen.
  destruct (_ && _); [|now intros [= <-]].
  apply (Hrec t3 (cons _)). lia.
Qed.

(** What the export gives when nothing raises in it. *)
Lemma export_outcome `{C : Collaborators} name output_format summary rows o :
  export name output_format summary rows = Ok o ->
  summary_text o = summary /\ frame o = Some rows
  /\ ((success o = true /\ error_message o = None /\ download_link o <> None
       /\ (output_format = u "markdown" \/ output_format = u "html"))
      \/ (success o = false /\ download_link o = None
          /\ error_message o
             = Some (u "Unsupported output format. Only Markdown and HTML are supported for download.")
          /\ output_format <> u "markdown" /\ output_format <> u "html")).
Proof.
  unfold export, str_eqb.
  destruct (bool_decide_reflect (output_format = u "markdown")) as [Hmd | Hmd].
  { destruct (utf8_encode summary); cbn [mbind result_bind]; [|discriminate].
    intros [= <-]. cbn. repeat split. left. repeat split; [discriminate | now left]. }
  destruct (bool_decide_reflect (output_format = u "html")) as [Hhtml | Hhtml].
  { destruct (markdown_html summary); cbn [mbind result_bind]; [|discriminate].
    destruct (utf8_encode _); cbn [mbind result_bind]; [|discriminate].
    intros [= <-]. cbn. repeat split. left. repeat split; [discriminate | now right]. }
  intros [= <-]. cbn. repeat split. right. repeat split; assumption.
Qed.

Ltac outcome_shape :=
  cbv zeta;
  cbn [fst snd success error_message download_link summary_text length on_exception];
  solve [repeat split; intros; subst; try discriminate; try congruence; try lia;
         try (intro; subst; discriminate)].

(** X7.  Whatever the upload, the format and the collaborators do, the
    outcome has one of two shapes: a success, with no error message and a
    summary that is not empty, or a failure, with an error message and no
    download link.  The summarizer is called at most once. *)
Theorem process_outcome_shape `{U : UnicodeData} `{P : DatetimeParser}
    `{C : Collaborators} uploaded_file output_format :
  let r := process_logs_and_summarize uploaded_file output_format in
  (success (fst r) = true <-> error_message (fst r) = None)
  /\ (success (fst r) = false -> download_link (fst r) = None)
  /\ (success (fst r) = true -> summary_text (fst r) <> [])
  /\ (length (snd r) <= 1)%nat.
Proof.
  unfold process_logs_and_summarize.
  destruct uploaded_file as [file|]; [|outcome_shape].
  destruct (utf8_decode (file_bytes file)) as [text | e];
    [|destruct e; outcome_shape].
  rewrite parse_log_data_eq. cbv zeta. cbn [df_logs error_warning_raw_lines].
  destruct (negb _ && bool_decide _); [outcome_shape|].
  destruct (generate_log_summary _) as [summary | e];
    [|destruct e; outcome_shape].
  destruct (negb (nonempty summary) || _) eqn:Hbad; [outcome_shape|].
  apply orb_false_iff in Hbad as [Hne _]. apply negb_false_iff in Hne.
  unfold export.
  destruct (str_eqb output_format (u "markdown")).
  { destruct (utf8_encode summary) as [encoded | e]; cbn [mbind result_bind];
      [outcome_shape | destruct e; outcome_shape]. }
  destruct (str_eqb output_format (u "html")); [|outcome_shape].
  destruct (markdown_html summary) as [html_summary | e]; cbn [mbind result_bind];
    [|destruct e; outcome_shape].
  destruct (utf8_encode _) as [encoded | e]; cbn [mbind result_bind];
    [outcome_shape | destruct e; outcome_shape].
Qed.

Lemma process_outcome_shape_witness :
  download_link
    (fst (process_logs_and_summarize (U := BasicLatin)
            (P := strptime_parser (U := BasicLatin)) (C := offline)
            (Some {| file_name := u "app.log";
                     file_bytes := bytes_of "ERROR disk failure" |})
            (u "markdown"))) = None.
Proof.
  destruct (process_outcome_shape (U := BasicLatin)
              (P := strptime_parser (U := BasicLatin)) (C := offline)
              (Some {| file_name := u "app.log";
                       file_bytes := bytes_of "ERROR disk failure" |})
              (u "markdown")) as (_ & Hlink & _).
  apply Hlink. vm_compute. reflexivity.
Defined.

(** X8.  When the file decodes and has elevated lines, the summarizer is
    called once, with those lines joined by line feeds; there are at most
    200 of them, each of elevated level, and splitting the text handed over
    at its line boundaries gives them back one by one. *)
Theorem summarizer_input_round_trip `{U : UnicodeData} `{P : DatetimeParser}
    `{C : Collaborators} file output_format log_content :
  utf8_decode (file_bytes file) = Ok log_content ->
  exists pd, parse_log_data log_content 200 = Ok pd /\
    (error_warning_raw_lines pd <> [] ->
     snd (process_logs_and_summarize (Some file) output_format)
       = [join [0x0A] (error_warning_raw_lines pd)]
     /\ splitlines (join [0x0A] (error_warning_raw_lines pd))
        = error_warning_raw_lines pd
     /\ (length (error_warning_raw_lines pd) <= 200)%nat
     /\ Forall (fun l => is_elevated (level (classify l)) = true)
          (error_warning_raw_lines pd)).
Proof.
  intros Hdec. unfold process_logs_and_summarize. rewrite Hdec.
  rewrite parse_log_data_eq. eexists. split; [reflexivity|].
  cbv zeta. cbn [df_logs error_warning_raw_lines].
  rewrite elevated_lines_classify.
  set (raw := take (Z.to_nat 200) (List.filter _ (nonblank_lines log_content))).
  intros Hne. split; [|split; [|split]].
  - rewrite (bool_decide_eq_false_2 _ Hne), andb_false_r.
    destruct (generate_log_summary _); [|reflexivity].
    destruct (_ || _); [reflexivity|].
    destruct (export _ _ _ _); reflexivity.
  - apply splitlines_join. subst raw. apply Forall_take, Forall_list_filter.
    eapply Forall_impl; [apply nonblank_lines_trimmed|].
    intros l (H1 & _ & H3). now split.
  - subst raw. rewrite length_take. change (Z.to_nat 200) with 200%nat. lia.
  - subst raw. apply Forall_take. apply Forall_forall. intros l Hl.
    apply list_elem_of_In, filter_In in Hl. apply Hl.
Qed.

Lemma summarizer_input_round_trip_witness :
  snd (process_logs_and_summarize (U := BasicLatin)
         (P := strptime_parser (U := BasicLatin)) (C := offline)
         (Some {| file_name := u "app.log";
                  file_bytes := bytes_of "  ERROR disk failure
INFO all good
[WARN] low memory  " |})
         (u "html"))
  = [u "ERROR disk failure
[WARN] low memory"].
Proof.
  destruct (summarizer_input_round_trip (U := BasicLatin)
              (P := strptime_parser (U := BasicLatin)) (C := offline)
              {| file_name := u "app.log";
                 file_bytes := bytes_of "  ERROR disk failure
INFO all good
[WARN] low memory  " |}
              (u "html") (u "  ERROR disk failure
INFO all good
[WARN] low memory  ")) as (pd & Hpd & Hcall).
  - vm_compute. reflexivity.
  - vm_compute in Hpd. injection Hpd as <-.
    destruct Hcall as (Hc & _); [discriminate|].
    rewrite Hc. vm_compute. reflexivity.
Defined.

(** X9.  A file whose bytes are not valid UTF-8 gives the failure that
    advises another encoding, with no frame, and the summarizer is not
    called. *)
Theorem undecodable_upload `{U : UnicodeData} `{P : DatetimeParser}
    `{C : Collaborators} file output_format :
  (forall s, utf8_decode (file_bytes file) <> Ok s) ->
  process_logs_and_summarize (Some file) output_format
  = ({| summary_text := []; download_link := None; success := false;
        error_message :=
          Some (u "Failed to read log file: UnicodeDecodeError. Try a different encoding (e.g., 'latin-1') or ensure it's a plain text file.");
        frame := None |}, []).
Proof.
  intros Hbad. unfold process_logs_and_summarize.
  destruct (utf8_decode (file_bytes file)) as [s | e] eqn:E; [now destruct (Hbad s)|].
  apply (utf8_decode_raise _ _ _ (Nat.le_refl _)) in E. subst. reflexivity.
Qed.

Lemma undecodable_upload_witness :
  success
    (fst (process_logs_and_summarize (U := BasicLatin)
            (P := strptime_parser (U := BasicLatin)) (C := offline)
            (Some {| file_name := u "latin1.log";
                     file_bytes := [Byte.x45; Byte.x52; Byte.x52; Byte.xe9] |})
            (u "markdown"))) = false.
Proof.
  rewrite (undecodable_upload (U := BasicLatin)
             (P := strptime_parser (U := BasicLatin)) (C := offline)
             {| file_name := u "latin1.log";
                file_bytes := [Byte.x45; Byte.x52; Byte.x52; Byte.xe9] |}
             (u "markdown")).
  - reflexivity.
  - intros s. vm_compute. discriminate.
Defined.

(** X10.  Once the file has decoded, the frame of parsed events is part of
    the outcome on every path: no findings, a summarizer that fails or
    answers with an error, an unsupported format, or a success. *)
Theorem frame_survives_summarizer `{U : UnicodeData} `{P : DatetimeParser}
    `{C : Collaborators} file output_format log_content :
  utf8_decode (file_bytes file) = Ok log_content ->
  exists pd, parse_log_data log_content 200 = Ok pd
    /\ frame (fst (process_logs_and_summarize (Some file) output_format))
       = Some (df_logs pd).
Proof.
  intros Hdec. unfold process_logs_and_summarize. rewrite Hdec.
  rewrite parse_log_data_eq. eexists. split; [reflexivity|].
  cbv zeta. cbn [df_logs error_warning_raw_lines].
  destruct (negb _ && bool_decide _); [reflexivity|].
  destruct (generate_log_summary _) as [summary | e]; [|destruct e; reflexivity].
  destruct (_ || _); [reflexivity|].
  destruct (export _ _ _ _) as [o | e] eqn:Hexport; [|destruct e; reflexivity].
  apply export_outcome in Hexport as (_ & Hframe & _). exact Hframe.
Qed.

Lemma frame_survives_summarizer_witness :
  exists rows,
    frame (fst (process_logs_and_summarize (U := BasicLatin)
                  (P := strptime_parser (U := BasicLatin)) (C := offline)
                  (Some {| file_name := u "app.log";
                           file_bytes := bytes_of "ERROR disk failure" |})
                  (u "markdown"))) = Some rows
    /\ length rows = 1%nat.
Proof.
  destruct (frame_survives_summarizer (U := BasicLatin)
              (P := strptime_parser (U := BasicLatin)) (C := offline)
              {| file_name := u "app.log";
                 file_bytes := bytes_of "ERROR disk failure" |}
              (u "markdown") (u "ERROR disk failure"))
    as (pd & Hpd & Hframe).
  - vm_compute. reflexivity.
  - exists (df_logs pd). split; [exact Hframe|].
    vm_compute in Hpd. injection Hpd as <-. reflexivity.
Defined.

(** ** Properties of [ai_logic.py] *)

Section ModelSelection.
Import AiLogic.

Lemma member_In x l : member x l = true <-> In x l.
Proof.
  unfold member. rewrite existsb_exists. split.
  - intros (y & Hy & Heq). apply bool_decide_eq_true in Heq. now subst.
  - intros Hx. exists x. split; [assumption|]. now apply bool_decide_eq_true.
Qed.

Lemma supported_In x models :
  In x (List.map name (List.filter generates models))
  <-> exists m, In m models /\ generates m = true /\ name m = x.
Proof.
  rewrite in_map_iff. split.
  - intros (m & Hn & Hm). apply filter_In in Hm as [Hm Hg]. eauto.
  - intros (m & Hm & Hg & Hn). exists m. split; [assumption|].
    apply filter_In. auto.
Qed.

(** The function makes one call, the listing, and ends as the listing and
    the names in it decide. *)
Lemma get_suitable_model_unfold `{G : GenAI} :
  _get_suitable_model
  = Run [Called CallListModels]
      match
        match list_models with
        | Raised e => Raised e
        | Returned available_models =>
            let supported_models := List.map name (List.filter generates available_models) in
            if member (u "models/gemini-1.5-flash-latest") supported_models
            then Returned (u "gemini-1.5-flash-latest")
            else if member (u "models/gemini-1.0-pro") supported_models
            then Returned (u "gemini-1.0-pro")
            else if member (u "models/gemini-pro") supported_models
            then Returned (u "gemini-pro")
            else
              match supported_models with
              | _ :: _ =>
                  match List.find text_model_name supported_models with
                  | Some model_name => Returned (replace (u "models/") [] model_name)
                  | None =>
                      Raised (ValueError (u "No suitable text generation model found that supports generateContent after filtering."))
                  end
              | [] => Raised (ValueError (u "No models found that support generateContent."))
              end
        end
      with
      | Returned model_name => Returned model_name
      | Raised e =>
          Raised (ConnectionError
                    (u "Failed to list or select a suitable Generative AI model: "
                     ++ exn_str e))
      end.
Proof.
  unfold _get_suitable_model, try_except, genai_list_models.
  cbn [mbind run_bind outcome events].
  destruct list_models as [available_models | e]; [|reflexivity].
  cbv zeta. fold generates. fold text_model_name.
  set (supported_models := List.map name (List.filter generates available_models)).
  repeat (destruct (member _ supported_models); [reflexivity|]).
  destruct supported_models as [|n0 rest]; [reflexivity|].
  destruct (List.find text_model_name (n0 :: rest)); reflexivity.
Qed.

End ModelSelection.

(** How [_get_suitable_model] ends, by what the listing holds. *)
Lemma get_suitable_model_cases `{G : AiLogic.GenAI} :
  match AiLogic.outcome AiLogic._get_suitable_model with
  | AiLogic.Returned model_name =>
      exists models m,
        AiLogic.list_models = AiLogic.Returned models
        /\ In m models /\ generates m = true /\ text_model_name (AiLogic.name m) = true
        /\ model_name = replace (u "models/") [] (AiLogic.name m)
  | AiLogic.Raised e =>
      (exists msg, e = AiLogic.ConnectionError msg)
      /\ forall models, AiLogic.list_models = AiLogic.Returned models ->
           forall m, In m models -> generates m = true ->
             text_model_name (AiLogic.name m) = false
  end.
Proof.
  rewrite get_suitable_model_unfold. cbn [AiLogic.outcome].
  destruct AiLogic.list_models as [models | e0];
    [|split; [eauto | discriminate]].
  cbv zeta. set (supported := List.map AiLogic.name (List.filter generates models)).
  assert (Hpref : forall long short,
            AiLogic.member long supported = true ->
            text_model_name long = true -> short = replace (u "models/") [] long ->
            exists models0 m,
              AiLogic.Returned models = AiLogic.Returned models0
              /\ In m models0 /\ generates m = true
              /\ text_model_name (AiLogic.name m) = true
              /\ short = replace (u "models/") [] (AiLogic.name m)).
  { intros long short Hmem Ht Hs. apply member_In, supported_In in Hmem.
    destruct Hmem as (m & Hm & Hg & Hn). exists models, m. rewrite Hn. auto. }
  destruct (AiLogic.member (u "models/gemini-1.5-flash-latest") supported) eqn:E1;
    [now apply (Hpref _ _ E1)|].
  destruct (AiLogic.member (u "models/gemini-1.0-pro") supported) eqn:E2;
    [now apply (Hpref _ _ E2)|].
  destruct (AiLogic.member (u "models/gemini-pro") supported) eqn:E3;
    [now apply (Hpref _ _ E3)|].
  destruct supported as [|n0 rest] eqn:Es.
  - split; [eauto|]. intros models0 [= <-] m Hm Hg.
    assert (Hin : In (AiLogic.name m) (List.map AiLogic.name (List.filter generates models)))
      by (apply supported_In; eauto).
    fold supported in Hin. rewrite Es in Hin. destruct Hin.
  - destruct (List.find text_model_name (n0 :: rest)) as [n|] eqn:Ef.
    + apply find_some in Ef as [Hin Ht]. rewrite <- Es in Hin.
      apply supported_In in Hin as (m & Hm & Hg & Hn).
      exists models, m. rewrite Hn. auto.
    + split; [eauto|]. intros models0 [= <-] m Hm Hg.
      apply (find_none _ _ Ef). rewrite <- Es. apply supported_In. eauto.
Qed.

(** X11.  [_get_suitable_model] returns a name only when the listing
    succeeded and holds a model that supports generateContent and has
    neither [embedding] nor [aqa] in its name; the name returned is that
    model's name without [models/].  When the listing holds such a model a
    name is returned.  Every failure is a ConnectionError. *)
Theorem suitable_model_specification `{G : AiLogic.GenAI} :
  match AiLogic.outcome AiLogic._get_suitable_model with
  | AiLogic.Returned model_name =>
      exists models m,
        AiLogic.list_models = AiLogic.Returned models
        /\ In m models /\ generates m = true /\ text_model_name (AiLogic.name m) = true
        /\ model_name = replace (u "models/") [] (AiLogic.name m)
  | AiLogic.Raised e =>
      (exists msg, e = AiLogic.ConnectionError msg)
      /\ forall models, AiLogic.list_models = AiLogic.Returned models ->
           forall m, In m models -> generates m = true ->
             text_model_name (AiLogic.name m) = false
  end.
Proof.
  pose proof get_suitable_model_cases as Hcases.
  destruct (AiLogic.outcome AiLogic._get_suitable_model) as [model_name | e].
  - destruct Hcases as (models & m & Hcases). exists models, m. exact Hcases.
  - destruct Hcases as [Hconn Hnone]. split; [exact Hconn | exact Hnone].
Qed.

Lemma suitable_model_specification_witness :
  exists models m,
    @AiLogic.list_models failing_service = AiLogic.Returned models
    /\ In m models /\ generates m = true /\ text_model_name (AiLogic.name m) = true
    /\ u "gemini-pro" = replace (u "models/") [] (AiLogic.name m).
Proof.
  generalize (suitable_model_specification (G := failing_service)).
  replace (AiLogic.outcome (@AiLogic._get_suitable_model failing_service))
    with (AiLogic.Returned (A := str) (u "gemini-pro"))
    by (vm_compute; reflexivity).
  exact (fun H => H).
Defined.

(** X12.  Whether a model is found does not depend on the order of the
    listing; and when one of the three preferred models supports
    generateContent, the model chosen does not depend on it either. *)
Theorem model_choice_and_listing_order (G1 G2 : AiLogic.GenAI) models1 models2 :
  @AiLogic.list_models G1 = AiLogic.Returned models1 ->
  @AiLogic.list_models G2 = AiLogic.Returned models2 ->
  Permutation models1 models2 ->
  ((exists r, AiLogic.outcome (@AiLogic._get_suitable_model G1) = AiLogic.Returned r)
   <-> (exists r, AiLogic.outcome (@AiLogic._get_suitable_model G2) = AiLogic.Returned r))
  /\ ((exists m, In m models1 /\ generates m = true /\ In (AiLogic.name m) preferred_names) ->
      @AiLogic._get_suitable_model G1 = @AiLogic._get_suitable_model G2).
Proof.
  intros H1 H2 Hperm. split.
  - assert (Hdir : forall Ga Gb ma mb,
              @AiLogic.list_models Ga = AiLogic.Returned ma ->
              @AiLogic.list_models Gb = AiLogic.Returned mb ->
              (forall m, In m ma -> In m mb) ->
              (exists r, AiLogic.outcome (@AiLogic._get_suitable_model Ga)
                         = AiLogic.Returned r) ->
              exists r, AiLogic.outcome (@AiLogic._get_suitable_model Gb)
                        = AiLogic.Returned r).
    { intros Ga Gb ma mb Ha Hb Hsub [r Hr].
      pose proof (get_suitable_model_cases (G := Ga)) as Sa.
      pose proof (get_suitable_model_cases (G := Gb)) as Sb.
      rewrite Hr in Sa. destruct Sa as (ms & m & Hl & Hm & Hg & Ht & _).
      rewrite Ha in Hl. injection Hl as <-.
      destruct (AiLogic.outcome (@AiLogic._get_suitable_model Gb)) as [r' | e]; [eauto|].
      destruct Sb as [_ Sb]. rewrite (Sb mb Hb m (Hsub m Hm) Hg) in Ht. discriminate. }
    split; eapply Hdir; eauto; intros m Hm.
    + now apply (Permutation_in _ Hperm).
    + now apply (Permutation_in _ (Permutation_sym Hperm)).
  - intros (m & Hm & Hg & Hpref).
    rewrite !get_suitable_model_unfold, H1, H2. cbv zeta.
    assert (Hmem : forall x,
              AiLogic.member x (List.map AiLogic.name (List.filter generates models1))
              = AiLogic.member x (List.map AiLogic.name (List.filter generates models2))).
    { intros x. apply Bool.eq_iff_eq_true. rewrite !member_In, !supported_In.
      split; intros (m' & Hm' & Hg' & Hn'); exists m'; repeat split; try assumption.
      - now apply (Permutation_in _ Hperm).
      - now apply (Permutation_in _ (Permutation_sym Hperm)). }
    rewrite !Hmem.
    assert (Hone : AiLogic.member (AiLogic.name m)
                     (List.map AiLogic.name (List.filter generates models2)) = true).
    { rewrite <- Hmem. apply member_In, supported_In. eauto. }
    simpl in Hpref. destruct Hpref as [E | [E | [E | []]]]; rewrite <- E in Hone;
      repeat (destruct (AiLogic.member _ _); try reflexivity; try discriminate).
Qed.

Lemma model_choice_and_listing_order_witness :
  @AiLogic._get_suitable_model failing_service
  = @AiLogic._get_suitable_model
      {| AiLogic.getenv_GOOGLE_API_KEY := None;
         AiLogic.configure := fun _ => AiLogic.Returned tt;
         AiLogic.list_models :=
           AiLogic.Returned
             [ {| AiLogic.name := u "models/gemini-pro";
                  AiLogic.supported_generation_methods :=
                    Some [u "generateContent"; u "countTokens"] |};
               {| AiLogic.name := u "models/embedding-001";
                  AiLogic.supported_generation_methods := Some [u "embedContent"] |} ];
         AiLogic.GenerativeModel := fun _ => AiLogic.Returned tt;
         AiLogic.generate_content := fun _ _ _ => AiLogic.Returned None;
         AiLogic.print := fun _ => AiLogic.Returned tt |}.
Proof.
  eapply model_choice_and_listing_order.
  - reflexivity.
  - reflexivity.
  - apply perm_swap.
  - eexists. split; [right; left; reflexivity|]. split; [reflexivity|].
    simpl. tauto.
Defined.

(** ** The run of [generate_log_summary] *)

Section Summarizer.
Import AiLogic.
Context `{G : GenAI}.

Lemma get_suitable_model_events :
  events _get_suitable_model = [Called CallListModels].
Proof. now rewrite get_suitable_model_unfold. Qed.

(** A name is chosen only from a listing that was given. *)
Lemma get_suitable_model_listing m :
  outcome _get_suitable_model = Returned m -> is_raised list_models = false.
Proof.
  rewrite get_suitable_model_unfold. cbn [outcome].
  now destruct list_models.
Qed.

Lemma calls_after {A B} (before : list event) (r : run A) (o : attempt B) :
  calls (Run (before ++ events r) o) = calls (Run before o) ++ calls r.
Proof. unfold calls. cbn [events]. apply omap_app. Qed.

Ltac run_steps :=
  cbn [mbind run_bind mret run_ret outcome events app].

(** The model is called once, whatever it answers. *)
Lemma llm_api_call_calls model_name prompt :
  calls (llm_api_call model_name prompt)
  = [CallGenerateContent model_name prompt {| temperature := (2, -1)%Z |}].
Proof.
  unfold llm_api_call, try_except, model_generate_content, read, print_line.
  cbv zeta. run_steps.
  destruct (generate_content _ _ _) as [[response|]|e]; run_steps;
    [destruct (parts response) as [[|? ?]|?]; run_steps;
       [destruct (candidates response) as [|candidate ?];
          [|destruct (candidate_text candidate) as [[|? ?]|?]]
       |destruct (text response)|] | | ];
    run_steps; try destruct (print _); reflexivity.
Qed.

(** When the call of the model raises, the handler prints and answers with
    the text of the exception, unless printing raises. *)
Lemma llm_api_call_raised model_name prompt e :
  generate_content model_name prompt {| temperature := (2, -1)%Z |} = Raised e ->
  llm_api_call model_name prompt
  = Run [Called (CallGenerateContent model_name prompt {| temperature := (2, -1)%Z |});
         Printed (u "DEBUG: Error during LLM API call: " ++ exn_str e)]
      match print (u "DEBUG: Error during LLM API call: " ++ exn_str e) with
      | Returned _ =>
          Returned (u "An error occurred while calling the Google Generative AI API: "
                    ++ exn_str e
                    ++ u ". Please check your API key, network connection, and ensure the model is available in your region.")
      | Raised e' => Raised e'
      end.
Proof.
  intros Hgen.
  unfold llm_api_call, try_except, model_generate_content, print_line.
  cbv zeta. run_steps. rewrite Hgen. run_steps.
  destruct (print _); reflexivity.
Qed.

(** The run of [generate_log_summary], by what the world answers. *)
Lemma generate_log_summary_run log_snippets :
  generate_log_summary log_snippets
  = match getenv_GOOGLE_API_KEY with
    | None | Some [] =>
        Run [] (Returned (u "ERROR: GOOGLE_API_KEY is not set in your .env file. Please ensure it's configured."))
    | Some api_key =>
        match configure api_key with
        | Raised e =>
            Run [Called (CallConfigure api_key)]
              (Returned (u "ERROR: Could not configure Google Generative AI. Check API key format or network: " ++ exn_str e))
        | Returned _ =>
            match outcome _get_suitable_model with
            | Raised e =>
                Run [Called (CallConfigure api_key); Called CallListModels]
                  (Returned (u "ERROR: Could not initialize Generative Model: " ++ exn_str e))
            | Returned m =>
                match GenerativeModel m with
                | Raised e =>
                    Run [Called (CallConfigure api_key); Called CallListModels;
                         Called (CallGenerativeModel m)]
                      (Returned (u "ERROR: Could not initialize Generative Model: " ++ exn_str e))
                | Returned _ =>
                    match print (u "DEBUG: Using model: " ++ m) with
                    | Raised e =>
                        Run [Called (CallConfigure api_key); Called CallListModels;
                             Called (CallGenerativeModel m);
                             Printed (u "DEBUG: Using model: " ++ m)]
                          (Returned (u "ERROR: Could not initialize Generative Model: " ++ exn_str e))
                    | Returned _ =>
                        Run ([Called (CallConfigure api_key); Called CallListModels;
                              Called (CallGenerativeModel m);
                              Printed (u "DEBUG: Using model: " ++ m)]
                             ++ events (llm_api_call m (prompt_for log_snippets)))
                          (outcome (llm_api_call m (prompt_for log_snippets)))
                    end
                end
            end
        end
    end.
Proof.
  unfold generate_log_summary.
  destruct getenv_GOOGLE_API_KEY as [[|k0 k]|]; [reflexivity| |reflexivity].
  pose proof get_suitable_model_events as Hevents.
  destruct _get_suitable_model as [evs out]. cbn [outcome events] in *. subst evs.
  unfold try_except, genai_configure, genai_GenerativeModel, print_line.
  run_steps.
  destruct (configure (k0 :: k)) as [[]|e]; [|reflexivity]. run_steps.
  destruct out as [m|e]; [|reflexivity]. run_steps.
  destruct (GenerativeModel m) as [[]|e]; [|reflexivity]. run_steps.
  destruct (print (u "DEBUG: Using model: " ++ m)) as [[]|e]; reflexivity.
Qed.

(** An answer given without calling the model reports an error. *)
Lemma summary_without_generation log_snippets :
  existsb is_generate_call (calls (generate_log_summary log_snippets)) = false ->
  exists answer,
    outcome (generate_log_summary log_snippets) = Returned answer
    /\ starts_with (u "ERROR:") answer = true.
Proof.
  rewrite generate_log_summary_run.
  destruct getenv_GOOGLE_API_KEY as [[|k0 k]|]; try (intros _; eexists; split; reflexivity).
  destruct (configure (k0 :: k)) as [[]|e]; [|intros _; eexists; split; reflexivity].
  destruct (outcome _get_suitable_model) as [m|e]; [|intros _; eexists; split; reflexivity].
  destruct (GenerativeModel m) as [[]|e]; [|intros _; eexists; split; reflexivity].
  destruct (print _) as [[]|e]; [|intros _; eexists; split; reflexivity].
  rewrite calls_after, llm_api_call_calls. discriminate.
Qed.

End Summarizer.

(** X13.  [generate_log_summary] calls the library in one order,
    configure, list the models, build the model, generate, and stops at the
    first step that fails: the calls it makes are exactly those up to the
    first call that raises, or up to the listing when no model suits, or up
    to the building of the model when the line that names the model cannot
    be printed.  A call that raised is the last one made.  Without a key no
    call is made.  An answer given without reaching the generation call is
    returned, not raised, and starts with [ERROR:].  The generation call,
    when made, comes after a successful configuration with the key of the
    environment and carries the model chosen by [_get_suitable_model], the
    prompt built around the snippets and the temperature 0.2. *)
Theorem summary_call_discipline `{G : AiLogic.GenAI} log_snippets :
  let r := AiLogic.generate_log_summary log_snippets in
  let generation m :=
    AiLogic.CallGenerateContent m (AiLogic.prompt_for log_snippets)
      {| AiLogic.temperature := (2, -1)%Z |} in
  AiLogic.calls r
  = match AiLogic.getenv_GOOGLE_API_KEY with
    | None | Some [] => []
    | Some api_key =>
        AiLogic.CallConfigure api_key ::
        match AiLogic.configure api_key with
        | AiLogic.Raised _ => []
        | AiLogic.Returned _ =>
            AiLogic.CallListModels ::
            match AiLogic.outcome AiLogic._get_suitable_model with
            | AiLogic.Raised _ => []
            | AiLogic.Returned m =>
                AiLogic.CallGenerativeModel m ::
                match AiLogic.GenerativeModel m with
                | AiLogic.Raised _ => []
                | AiLogic.Returned _ =>
                    match AiLogic.print (u "DEBUG: Using model: " ++ m) with
                    | AiLogic.Raised _ => []
                    | AiLogic.Returned _ => [generation m]
                    end
                end
            end
        end
    end
  /\ (forall i c, AiLogic.calls r !! i = Some c -> call_raises c = true ->
        length (AiLogic.calls r) = S i)
  /\ (AiLogic.getenv_GOOGLE_API_KEY = None \/ AiLogic.getenv_GOOGLE_API_KEY = Some []
        -> AiLogic.calls r = [])
  /\ (existsb is_generate_call (AiLogic.calls r) = false ->
      exists answer, AiLogic.outcome r = AiLogic.Returned answer
                     /\ starts_with (u "ERROR:") answer = true)
  /\ (forall m p c, In (AiLogic.CallGenerateContent m p c) (AiLogic.calls r) ->
        AiLogic.outcome AiLogic._get_suitable_model = AiLogic.Returned m
        /\ p = AiLogic.prompt_for log_snippets
        /\ c = {| AiLogic.temperature := (2, -1)%Z |}
        /\ exists k, AiLogic.getenv_GOOGLE_API_KEY = Some k /\ k <> []
             /\ AiLogic.configure k = AiLogic.Returned tt
             /\ AiLogic.GenerativeModel m = AiLogic.Returned tt
             /\ AiLogic.print (u "DEBUG: Using model: " ++ m) = AiLogic.Returned tt).
Proof.
  intros r generation.
  match goal with |- ?log /\ _ => assert (Hlog : log); [|split; [exact Hlog|]] end.
  { subst r. rewrite generate_log_summary_run.
    destruct AiLogic.getenv_GOOGLE_API_KEY as [[|k0 k]|]; try reflexivity.
    destruct (AiLogic.configure (k0 :: k)); [|reflexivity].
    destruct (AiLogic.outcome AiLogic._get_suitable_model) as [m|]; [|reflexivity].
    destruct (AiLogic.GenerativeModel m); [|reflexivity].
    destruct (AiLogic.print _); [|reflexivity].
    rewrite calls_after, llm_api_call_calls. reflexivity. }
  split; [|split; [|split; [exact (summary_without_generation log_snippets)|]]].
  - intros i c. rewrite Hlog. clear Hlog.
    destruct AiLogic.getenv_GOOGLE_API_KEY as [[|k0 k]|]; try discriminate.
    destruct (AiLogic.configure (k0 :: k)) as [[]|?] eqn:Ec;
      [destruct (AiLogic.outcome AiLogic._get_suitable_model) as [m|?] eqn:Em;
         [apply get_suitable_model_listing in Em;
          destruct (AiLogic.GenerativeModel m) as [[]|?] eqn:Eg;
            [destruct (AiLogic.print _) as [[]|?]|]|]|];
      intros Hi Hraises;
      repeat (destruct i as [|i];
                [cbn in Hi; injection Hi as <-; cbn [call_raises] in Hraises;
                 try reflexivity;
                 try rewrite Ec in Hraises; try rewrite Em in Hraises;
                 try rewrite Eg in Hraises;
                 discriminate Hraises
                |cbn in Hi]);
      discriminate.
  - intros [Hk | Hk]; rewrite Hlog, Hk; reflexivity.
  - intros m p c. rewrite Hlog. clear Hlog.
    destruct AiLogic.getenv_GOOGLE_API_KEY as [[|k0 k]|]; [intros [] | | intros []].
    destruct (AiLogic.configure (k0 :: k)) as [[]|?] eqn:Ec;
      [destruct (AiLogic.outcome AiLogic._get_suitable_model) as [m0|?] eqn:Em;
         [destruct (AiLogic.GenerativeModel m0) as [[]|?] eqn:Eg;
            [destruct (AiLogic.print _) as [[]|?] eqn:Ep|]|]|];
      cbn [In]; intros Hin; decompose [or] Hin; try discriminate; try contradiction.
    match goal with H : generation _ = _ |- _ => injection H as <- <- <- end.
    repeat split. exists (k0 :: k). repeat split; try assumption. discriminate.
Qed.

Lemma summary_call_discipline_witness :
  AiLogic.calls (@AiLogic.generate_log_summary keyless_service (u "ERROR disk failure")) = []
  /\ exists answer,
       AiLogic.outcome (@AiLogic.generate_log_summary keyless_service (u "ERROR disk failure"))
       = AiLogic.Returned answer
       /\ starts_with (u "ERROR:") answer = true.
Proof.
  destruct (summary_call_discipline (G := keyless_service) (u "ERROR disk failure"))
    as (_ & _ & Hnone & Hflag & _).
  split.
  - apply Hnone. left. reflexivity.
  - apply Hflag. vm_compute. reflexivity.
Defined.

(** ** Properties of the two modules together *)

Lemma take_filter_nonempty {A} f (l : list A) x n :
  In x l -> f x = true -> take (S n) (List.filter f l) <> [].
Proof.
  intros Hin Hf Hnil.
  assert (Hx : In x (List.filter f l)) by (apply filter_In; auto).
  destruct (List.filter f l); [destruct Hx | discriminate].
Qed.

(** Encoding succeeds exactly on a text without surrogates. *)
Lemma utf8_encode_encodable s :
  encodable s = true -> exists encoded, utf8_encode s = Ok encoded.
Proof.
  unfold utf8_encode. generalize 0. induction s as [|c s IH]; intros pos Hs;
    [eexists; reflexivity|].
  simpl in Hs. apply andb_true_iff in Hs as [Hc Hs]. apply negb_true_iff in Hc.
  cbn [utf8_encode_from]. rewrite Hc. destruct (IH (pos + 1) Hs) as [encoded ->].
  eexists. reflexivity.
Qed.

Lemma utf8_encode_surrogate s :
  encodable s = false -> exists msg, utf8_encode s = Raise (UnicodeEncodeError msg).
Proof.
  unfold utf8_encode. generalize 0. induction s as [|c s IH]; intros pos Hs;
    [discriminate|].
  simpl in Hs. cbn [utf8_encode_from].
  destruct (is_surrogate c); [eexists; reflexivity|].
  destruct (IH (pos + 1) Hs) as [msg ->]. eexists. reflexivity.
Qed.

Lemma encodable_app a b : encodable (a ++ b) = encodable a && encodable b.
Proof. apply forallb_app. Qed.

Lemma replace_from_In old skip s c :
  In c (replace_from old [] skip s) -> In c s.
Proof.
  revert skip. induction s as [|x s IH]; intros skip; [intros []|].
  cbn [replace_from]. destruct skip as [|skip]; [|right; eauto].
  destruct (starts_with old (x :: s)); [right; eauto|].
  intros [<- | Hc]; [now left | right; eauto].
Qed.

Lemma encodable_replace old s :
  encodable s = true -> encodable (replace old [] s) = true.
Proof.
  unfold encodable. rewrite !forallb_forall. intros Hs c Hc. apply Hs.
  destruct old as [|o old]; [|exact (replace_from_In _ _ _ _ Hc)].
  cbn [replace app] in Hc. apply in_flat_map in Hc as (x & Hx & [<- | []]).
  exact Hx.
Qed.

(** X14.  When the generation call raises, [generate_log_summary] prints
    a line and answers with a text that does not start with [ERROR:], and
    [process_logs_and_summarize] takes it for a summary.  For a file with
    an elevated line: when the line is printed and the format is
    [markdown], the outcome is a success with that text as summary and no
    error message exactly when the text of the exception has no surrogate,
    and the failure of the last [except] clause otherwise; when the format
    is [html], it is that success when the renderer returns a text and
    neither it nor the name of the file has a surrogate; and when printing
    the line raises, it is the failure of the last [except] clause, with
    the text of what printing raised. *)
Theorem generation_failure_reported_as_success `{U : UnicodeData}
    `{P : DatetimeParser} `{G : AiLogic.GenAI} (C : Collaborators)
    file output_format log_content e :
  utf8_decode (file_bytes file) = Ok log_content ->
  (exists l, In l (nonblank_lines log_content)
             /\ is_elevated (level (classify l)) = true) ->
  (exists k m, AiLogic.getenv_GOOGLE_API_KEY = Some k /\ k <> []
               /\ AiLogic.configure k = AiLogic.Returned tt
               /\ AiLogic.outcome AiLogic._get_suitable_model = AiLogic.Returned m
               /\ AiLogic.GenerativeModel m = AiLogic.Returned tt
               /\ AiLogic.print (u "DEBUG: Using model: " ++ m) = AiLogic.Returned tt) ->
  (forall m p c, AiLogic.generate_content m p c = AiLogic.Raised e) ->
  let answer :=
    u "An error occurred while calling the Google Generative AI API: "
    ++ AiLogic.exn_str e
    ++ u ". Please check your API key, network connection, and ensure the model is available in your region." in
  let debug_line := u "DEBUG: Error during LLM API call: " ++ AiLogic.exn_str e in
  let unexpected msg := u "An unexpected error occurred during log processing: " ++ msg in
  let o := fst (process_logs_and_summarize (C := with_ai_logic C)
                  (Some file) output_format) in
  (AiLogic.print debug_line = AiLogic.Returned tt ->
   (output_format = u "markdown" ->
    if encodable (AiLogic.exn_str e)
    then success o = true /\ error_message o = None /\ summary_text o = answer
    else success o = false
         /\ exists msg, error_message o = Some (unexpected msg))
   /\ (output_format = u "html" ->
       forall html_summary,
         @markdown_html C answer = Ok html_summary ->
         encodable (file_name file) = true -> encodable html_summary = true ->
         success o = true /\ error_message o = None /\ summary_text o = answer))
  /\ (forall e', AiLogic.print debug_line = AiLogic.Raised e' ->
        success o = false
        /\ error_message o = Some (unexpected (AiLogic.exn_str e'))).
Proof.
  intros Hdec (l & Hl & Hel) (k & m & Hk & Hne & Hc & Hm & Hg & Hp) Hgen.
  intros answer debug_line unexpected.
  unfold process_logs_and_summarize. rewrite Hdec, parse_log_data_eq.
  cbv zeta. cbn [df_logs error_warning_raw_lines].
  rewrite elevated_lines_classify.
  rewrite (bool_decide_eq_false_2 _
             (take_filter_nonempty _ _ l 199 Hl Hel)), andb_false_r.
  cbn [generate_log_summary with_ai_logic].
  rewrite generate_log_summary_run, Hk.
  destruct k as [|k0 k]; [congruence|]. rewrite Hc, Hm, Hg, Hp.
  rewrite (llm_api_call_raised _ _ e (Hgen _ _ _)). cbn [AiLogic.outcome].
  fold debug_line. fold answer.
  destruct (AiLogic.print debug_line) as [[]|e'] eqn:Hprint.
  2: { split; [discriminate|]. intros e'' [= <-]. split; reflexivity. }
  split; [intros _ | discriminate].
  replace (negb (nonempty answer) || starts_with (u "ERROR:") answer) with false
    by reflexivity.
  assert (Hanswer : encodable answer = encodable (AiLogic.exn_str e)).
  { subst answer. rewrite !encodable_app.
    replace (encodable (u "An error occurred while calling the Google Generative AI API: "))
      with true by (vm_compute; reflexivity).
    replace (encodable (u ". Please check your API key, network connection, and ensure the model is available in your region."))
      with true by (vm_compute; reflexivity).
    now rewrite andb_true_r. }
  split.
  - intros ->. unfold export.
    replace (str_eqb (u "markdown") (u "markdown")) with true by reflexivity.
    rewrite <- Hanswer. destruct (encodable answer) eqn:Henc.
    + destruct (utf8_encode_encodable _ Henc) as [encoded ->].
      cbn [mbind result_bind fst success error_message summary_text]. auto.
    + destruct (utf8_encode_surrogate _ Henc) as [msg ->].
      cbn [mbind result_bind fst on_exception success error_message exn_text].
      split; [reflexivity | eexists; reflexivity].
  - intros -> html_summary Hrender Hname Hbody. unfold export.
    replace (str_eqb (u "html") (u "markdown")) with false by reflexivity.
    replace (str_eqb (u "html") (u "html")) with true by reflexivity.
    cbn [markdown_html with_ai_logic]. rewrite Hrender. cbn [mbind result_bind].
    assert (Hpage : encodable
              (html_page (replace (u ".txt") [] (replace (u ".log") [] (file_name file)))
                 html_summary) = true).
    { unfold html_page. rewrite !encodable_app, Hbody.
      rewrite (encodable_replace _ _ (encodable_replace _ _ Hname)).
      vm_compute. reflexivity. }
    destruct (utf8_encode_encodable _ Hpage) as [encoded ->].
    cbn [mbind result_bind fst success error_message summary_text]. auto.
Qed.

Lemma generation_failure_reported_as_success_witness :
  success
    (fst (process_logs_and_summarize (U := BasicLatin)
            (P := strptime_parser (U := BasicLatin))
            (C := with_ai_logic (G := failing_service) offline)
            (Some {| file_name := u "app.log";
                     file_bytes := bytes_of "ERROR disk failure" |})
            (u "markdown"))) = true
  /\ success
       (fst (process_logs_and_summarize (U := BasicLatin)
               (P := strptime_parser (U := BasicLatin))
               (C := with_ai_logic (G := garbled_service) offline)
               (Some {| file_name := u "app.log";
                        file_bytes := bytes_of "ERROR disk failure" |})
               (u "markdown"))) = false.
Proof.
  split.
  - destruct (generation_failure_reported_as_success (U := BasicLatin)
                (P := strptime_parser (U := BasicLatin)) (G := failing_service) offline
                {| file_name := u "app.log"; file_bytes := bytes_of "ERROR disk failure" |}
                (u "markdown") (u "ERROR disk failure")
                (AiLogic.LibraryError (u "429 quota exceeded"))) as [Hprinted _].
    + vm_compute. reflexivity.
    + exists (u "ERROR disk failure").
      split; [vm_compute; tauto | vm_compute; reflexivity].
    + exists (u "k-123"), (u "gemini-pro").
      repeat split; try reflexivity; discriminate.
    + reflexivity.
    + destruct (Hprinted eq_refl) as [Hmarkdown _].
      exact (proj1 (Hmarkdown eq_refl)).
  - destruct (generation_failure_reported_as_success (U := BasicLatin)
                (P := strptime_parser (U := BasicLatin)) (G := garbled_service) offline
                {| file_name := u "app.log"; file_bytes := bytes_of "ERROR disk failure" |}
                (u "markdown") (u "ERROR disk failure")
                (AiLogic.LibraryError (u "bad reply " ++ [0xDC80]))) as [Hprinted _].
    + vm_compute. reflexivity.
    + exists (u "ERROR disk failure").
      split; [vm_compute; tauto | vm_compute; reflexivity].
    + exists (u "k-123"), (u "gemini-pro").
      repeat split; try reflexivity; discriminate.
    + reflexivity.
    + destruct (Hprinted eq_refl) as [Hmarkdown _].
      exact (proj1 (Hmarkdown eq_refl)).
Defined.

(** X15.  When [generate_log_summary] stops before the generation call
    (no key, a configuration that fails, no model), it returns an answer,
    and a file with an elevated line gives a failure whose error message is
    that answer; the summary is empty, there is no link, and the frame is
    kept. *)
Theorem setup_failure_outcome `{U : UnicodeData} `{P : DatetimeParser}
    `{G : AiLogic.GenAI} (C : Collaborators) file output_format log_content :
  utf8_decode (file_bytes file) = Ok log_content ->
  exists pd, parse_log_data log_content 200 = Ok pd /\
    (error_warning_raw_lines pd <> [] ->
     let r := AiLogic.generate_log_summary (join [0x0A] (error_warning_raw_lines pd)) in
     existsb is_generate_call (AiLogic.calls r) = false ->
     exists answer,
       AiLogic.outcome r = AiLogic.Returned answer
       /\ process_logs_and_summarize (C := with_ai_logic C) (Some file) output_format
          = ({| summary_text := []; download_link := None; success := false;
                error_message := Some answer;
                frame := Some (df_logs pd) |},
             [join [0x0A] (error_warning_raw_lines pd)])).
Proof.
  intros Hdec. unfold process_logs_and_summarize. rewrite Hdec, parse_log_data_eq.
  eexists. split; [reflexivity|]. cbv zeta. cbn [df_logs error_warning_raw_lines].
  intros Hne Hcalls.
  rewrite (bool_decide_eq_false_2 _ Hne), andb_false_r.
  cbn [generate_log_summary with_ai_logic].
  destruct (summary_without_generation _ Hcalls) as (answer & Hanswer & Herror).
  exists answer. split; [exact Hanswer|].
  rewrite Hanswer, Herror, orb_true_r. reflexivity.
Qed.

Lemma setup_failure_outcome_witness :
  error_message
    (fst (process_logs_and_summarize (U := BasicLatin)
            (P := strptime_parser (U := BasicLatin))
            (C := with_ai_logic (G := keyless_service) offline)
            (Some {| file_name := u "app.log";
                     file_bytes := bytes_of "ERROR disk failure" |})
            (u "markdown")))
  = Some (u "ERROR: GOOGLE_API_KEY is not set in your .env file. Please ensure it's configured.").
Proof.
  destruct (setup_failure_outcome (U := BasicLatin)
              (P := strptime_parser (U := BasicLatin)) (G := keyless_service) offline
              {| file_name := u "app.log"; file_bytes := bytes_of "ERROR disk failure" |}
              (u "markdown") (u "ERROR disk failure"))
    as (pd & Hpd & Hout).
  - vm_compute. reflexivity.
  - vm_compute in Hpd. injection Hpd as <-.
    destruct Hout as (answer & Hanswer & ->);
      [discriminate | vm_compute; reflexivity |].
    vm_compute in Hanswer. injection Hanswer as <-. reflexivity.
Defined.

(** ** Properties of [main.py] with [features.py] *)

Lemma classify_timestamp `{U : UnicodeData} l :
  timestamp_str (classify l) = group (finish l (scan l)) "timestamp_str".
Proof.
  pose proof (classify_line_classify l) as Hc. unfold classify_line in Hc.
  destruct (structured_match l) as [[[ts lvl] msg]|] eqn:Hm; [|discriminate].
  cbn [mbind result_bind] in Hc. injection Hc as <-. cbn [timestamp_str].
  exact (structured_match_timestamp _ _ _ _ Hm).
Qed.

(** X16.  The timeline is drawn only for a log in which some line begins
    with the shape of a timestamp, whatever the parser of times; every row
    drawn has a time, a level that is one of the categories and a colour of
    the map. *)
Theorem timeline_needs_timestamps `{U : UnicodeData} `{P : DatetimeParser}
    log_content N :
  exists pd, parse_log_data log_content N = Ok pd
    /\ (Main.shows_timeline (Some (df_logs pd)) = true ->
        exists l, In l (nonblank_lines log_content)
                  /\ match_classes ts_seconds_classes l = true)
    /\ Forall (fun rc =>
                 timestamp (fst rc) <> None
                 /\ snd rc = Some (level (entry (fst rc)))
                 /\ is_Some (Main.color_map !! level (entry (fst rc))))
         (Main.df_plot (df_logs pd)).
Proof.
  rewrite parse_log_data_eq. eexists. split; [reflexivity|].
  cbn [df_logs]. rewrite make_frame_eq. split.
  - unfold Main.shows_timeline. intros Hshow.
    apply andb_true_iff in Hshow as [_ Hex].
    apply existsb_exists in Hex as (row & Hrow & Hts).
    apply in_map_iff in Hrow as (e & <- & He). cbn [timestamp] in Hts.
    apply in_map_iff in He as (l & <- & Hl). exists l. split; [assumption|].
    rewrite classify_timestamp, group_timestamp in Hts.
    destruct (match_classes ts_seconds_classes l); [reflexivity | discriminate].
  - unfold Main.df_plot. apply Forall_forall. intros rc Hrc.
    apply list_elem_of_In, in_map_iff in Hrc as (row & <- & Hrow).
    apply filter_In in Hrow as [Hrow Hts]. cbn [fst snd].
    apply in_map_iff in Hrow as (e & <- & He). cbn [entry timestamp] in *.
    apply in_map_iff in He as (l & <- & _).
    destruct (classify_line_ok l) as (e & He & Hlev & _).
    rewrite classify_line_classify in He. injection He as <-.
    split; [now destruct (coerce_timestamp _)|].
    simpl in Hlev.
    destruct Hlev as [<- | [<- | [<- | [<- | [<- | [<- | []]]]]]];
      (split; [reflexivity | vm_compute; eauto]).
Qed.

Lemma timeline_needs_timestamps_witness :
  exists pd,
    parse_log_data (U := BasicLatin) (P := strptime_parser (U := BasicLatin))
      db_error_line 200 = Ok pd
    /\ Main.shows_timeline (Some (df_logs pd)) = true
    /\ match_classes (U := BasicLatin) ts_seconds_classes db_error_line = true.
Proof.
  destruct (timeline_needs_timestamps (U := BasicLatin)
              (P := strptime_parser (U := BasicLatin)) db_error_line 200)
    as (pd & Hpd & Hshow & _).
  exists pd. split; [exact Hpd|].
  assert (Hs : Main.shows_timeline (Some (df_logs pd)) = true).
  { vm_compute in Hpd. injection Hpd as <-. vm_compute. reflexivity. }
  split; [exact Hs|].
  destruct (Hshow Hs) as (l & Hl & Hm).
  vm_compute in Hl. destruct Hl as [<- | []]. exact Hm.
Defined.

(** X17.  Called from the page, [process_logs_and_summarize] never gives
    its two defensive failures: the page calls it only with a file, and
    only with the format [markdown] or [html]. *)
Theorem page_never_meets_defensive_failures `{U : UnicodeData}
    `{P : DatetimeParser} `{C : Collaborators} inputs o calls :
  Main.analysis inputs = Some (o, calls) ->
  error_message o <> Some (u "Please upload a log file to get started.")
  /\ error_message o
     <> Some (u "Unsupported output format. Only Markdown and HTML are supported for download.").
Proof.
  unfold Main.analysis. destruct (negb _); [discriminate|]. cbv zeta.
  destruct (Main.uploaded_file inputs) as [file|]; [|discriminate].
  destruct (Main.process_button inputs); [|discriminate].
  intros Hcall. apply (inj Some) in Hcall. revert Hcall.
  unfold process_logs_and_summarize.
  destruct (utf8_decode (file_bytes file)) as [text | e].
  2: { destruct e; intros [= <- _]; split; discriminate. }
  rewrite parse_log_data_eq. cbv zeta. cbn [df_logs error_warning_raw_lines].
  destruct (negb _ && bool_decide _); [intros [= <- _]; split; discriminate|].
  destruct (generate_log_summary _) as [summary | e].
  2: { destruct e; intros [= <- _]; split; discriminate. }
  destruct (negb (nonempty summary) || starts_with (u "ERROR:") summary) eqn:Hbad.
  { intros [= <- _]. cbn [error_message].
    split; intros [= ->]; vm_compute in Hbad; discriminate. }
  destruct (export _ _ _ _) as [exported | e] eqn:Hexport.
  2: { destruct e; intros [= <- _]; split; discriminate. }
  intros [= <- _].
  apply export_outcome in Hexport
    as (_ & _ & [(_ & Hnone & _) | (_ & _ & _ & Hmarkdown & Hhtml)]).
  - rewrite Hnone. split; discriminate.
  - exfalso. destruct (Main.output_choice inputs);
      [apply Hmarkdown | apply Hhtml]; reflexivity.
Qed.

Lemma page_never_meets_defensive_failures_witness :
  exists o calls,
    Main.analysis (U := BasicLatin) (P := strptime_parser (U := BasicLatin))
      (C := offline)
      {| Main.GOOGLE_API_KEY := Some (u "k-123");
         Main.uploaded_file := Some {| file_name := u "app.log";
                                       file_bytes := bytes_of "ERROR disk failure" |};
         Main.output_choice := Main.HTML;
         Main.process_button := true |} = Some (o, calls)
    /\ error_message o <> Some (u "Please upload a log file to get started.").
Proof.
  eexists _, _. split; [vm_compute; reflexivity|].
  refine (proj1 (page_never_meets_defensive_failures (U := BasicLatin)
                   (P := strptime_parser (U := BasicLatin)) (C := offline)
                   {| Main.GOOGLE_API_KEY := Some (u "k-123");
                      Main.uploaded_file :=
                        Some {| file_name := u "app.log";
                                file_bytes := bytes_of "ERROR disk failure" |};
                      Main.output_choice := Main.HTML;
                      Main.process_button := true |} _ _ _)).
  vm_compute. reflexivity.
Defined.
